(** * gemini_cli.py: the file-collection pipeline and the prompt assembler

    A shallow embedding of [src/gemini_cli.py]: [format_file_content],
    [is_binary_file], [get_files_from_paths] (with its two closures
    [should_exclude] and [process_file]), [load_env_file], [configure_api]
    and [main].

    Modelling conventions.
    - A Python [str] is a [string] whose characters are the code points
      U+0000..U+00FF; on these [str.lower] and the UTF-8 encoded length are
      exactly the functions [Py.lower] and [Py.utf8_len] below.
    - A Python [int] is a [Z]; [None] is the [None] of an [option].
    - [os.path] is the POSIX flavour ([posixpath] / [genericpath]).
    - The file system is an oracle ([filesystem]) answering the five
      library calls the source makes; it does not change during one
      collection.
    - The mutable locals of [get_files_from_paths] ([formatted_contents],
      [included_files], [total_bytes]) and the lines printed on standard
      output are one record, [collector], passed from call to call.
    - What [main] does to the outside (printing, loading [.env], reading
      the API key, calling the API client, writing the output file) is a
      list of [Main.event]s
      in the order of the calls; the outside answers through the oracles
      of [Main.world]. *)

From Stdlib Require Import ZArith Lia String Ascii List Bool DecimalString.
From Stdlib.Strings Require Import Byte.
From stdpp Require Import base list strings.

Local Open Scope string_scope.
Local Open Scope list_scope.
Local Open Scope Z_scope.

(** ** Python strings *)

Module Py.

Definition nl : ascii := "010"%char.
Definition dquote : ascii := "034"%char.

(** [s[n:]] and [s[:n]] for [0 <= n]. *)
Fixpoint drop_str (n : nat) (s : string) : string :=
  match n, s with
  | O, _ => s
  | S _, EmptyString => EmptyString
  | S k, String _ r => drop_str k r
  end.

Fixpoint take_str (n : nat) (s : string) : string :=
  match n, s with
  | O, _ => EmptyString
  | S _, EmptyString => EmptyString
  | S k, String c r => String c (take_str k r)
  end.

(** [s.rfind(c)]: the highest index holding [c], or [-1]. *)
Fixpoint rfind_from (c : ascii) (s : string) (i : Z) (found : Z) : Z :=
  match s with
  | EmptyString => found
  | String a r => rfind_from c r (i + 1) (if Ascii.eqb a c then i else found)
  end.

Definition rfind (c : ascii) (s : string) : Z := rfind_from c s 0 (-1).

(** [s.startswith(c)] and [s.endswith(c)] for a one-character [c]. *)
Definition startswith (c : ascii) (s : string) : bool :=
  match s with
  | String a _ => Ascii.eqb a c
  | EmptyString => false
  end.

Fixpoint endswith (c : ascii) (s : string) : bool :=
  match s with
  | EmptyString => false
  | String a EmptyString => Ascii.eqb a c
  | String _ r => endswith c r
  end.

(** [str.lower] on U+0000..U+00FF: A-Z and the Latin-1 capitals
    U+00C0..U+00DE (the multiplication sign U+00D7 apart) move up by 32. *)
Definition lower_char (c : ascii) : ascii :=
  let n := nat_of_ascii c in
  if (Nat.leb 65 n && Nat.leb n 90)
     || (Nat.leb 192 n && Nat.leb n 222 && negb (Nat.eqb n 215))
  then ascii_of_nat (n + 32)
  else c.

Fixpoint lower (s : string) : string :=
  match s with
  | EmptyString => EmptyString
  | String c r => String (lower_char c) (lower r)
  end.

(** [len(s.encode('utf-8'))]: one byte below U+0080, two up to U+00FF. *)
Definition utf8_char_len (c : ascii) : Z :=
  if Nat.ltb (nat_of_ascii c) 128 then 1 else 2.

Fixpoint utf8_len (s : string) : Z :=
  match s with
  | EmptyString => 0
  | String c r => utf8_char_len c + utf8_len r
  end.

(** [sep.join(parts)]. *)
Fixpoint join (sep : string) (parts : list string) : string :=
  match parts with
  | [] => EmptyString
  | [p] => p
  | p :: rest => p +:+ sep +:+ join sep rest
  end.

(** [x in xs] for a list of strings. *)
Definition contains (x : string) (xs : list string) : bool :=
  existsb (String.eqb x) xs.

(** [xs or []]. *)
Definition or_empty {A} (xs : option (list A)) : list A :=
  match xs with
  | Some l => l
  | None => []
  end.

End Py.

(** ** [os.path] (POSIX) *)

Module OsPath.

Definition sep : ascii := "/"%char.
Definition extsep : ascii := "."%char.

(** [posixpath.basename]: [i = p.rfind('/') + 1; return p[i:]]. *)
Definition basename (p : string) : string :=
  let i := Py.rfind sep p + 1 in
  Py.drop_str (Z.to_nat i) p.

(** The [while filenameIndex < dotIndex] loop of [genericpath._splitext];
    [n] is [dotIndex - filenameIndex], the iterations left. *)
Fixpoint splitext_loop (p : string) (dotIndex filenameIndex : Z) (n : nat)
  : string * string :=
  match n with
  | O => (p, EmptyString)
  | S k =>
      match String.get (Z.to_nat filenameIndex) p with
      | Some c =>
          if Ascii.eqb c extsep
          then splitext_loop p dotIndex (filenameIndex + 1) k
          else (Py.take_str (Z.to_nat dotIndex) p,
                Py.drop_str (Z.to_nat dotIndex) p)
      | None => (Py.take_str (Z.to_nat dotIndex) p,
                 Py.drop_str (Z.to_nat dotIndex) p)
      end
  end.

(** [posixpath.splitext], that is [genericpath._splitext(p, '/', None, '.')]. *)
Definition splitext (p : string) : string * string :=
  let sepIndex := Py.rfind sep p in
  let dotIndex := Py.rfind extsep p in
  if dotIndex >? sepIndex
  then splitext_loop p dotIndex (sepIndex + 1)
         (Z.to_nat (dotIndex - (sepIndex + 1)))
  else (p, EmptyString).

(** [posixpath.join(a, b)]. *)
Definition join (a b : string) : string :=
  if Py.startswith sep b then b
  else if String.eqb a EmptyString || Py.endswith sep a then a +:+ b
  else a +:+ String sep EmptyString +:+ b.

End OsPath.

(** ** The file system, as the source sees it *)

(** What [open(p, 'r', encoding='utf-8').read()] does. *)
Inductive read_result :=
| ReadOk (content : string)
| ReadUnicodeDecodeError
| ReadException (e : string).

Record filesystem := {
  (** [os.path.isfile], [os.path.isdir] *)
  isfile : string → bool;
  isdir : string → bool;
  (** [os.walk(d)]: the [(root, dirs, files)] triples, in the order yielded *)
  walk : string → list (string * list string * list string);
  (** [open(p, 'rb')] and the bytes that follow; [None] when it raises *)
  open_rb : string → option (list byte);
  (** [open(p, 'r', encoding='utf-8').read()] *)
  read_utf8 : string → read_result
}.

(** ** [format_file_content] and [is_binary_file] *)

Definition triple_quote : string :=
  String Py.dquote (String Py.dquote (String Py.dquote EmptyString)).

Definition newline : string := String Py.nl EmptyString.

Definition format_file_content (file_path content : string) : string :=
  "File: " +:+ OsPath.basename file_path +:+ newline +:+ triple_quote
    +:+ newline +:+ content +:+ newline +:+ triple_quote.

Definition is_nul (b : byte) : bool := Byte.eqb b x00.

Definition is_binary_file (fs : filesystem) (file_path : string) : bool :=
  match open_rb fs file_path with
  | Some bytes => existsb is_nul (firstn 1024 bytes)
  | None => true
  end.

(** ** [get_files_from_paths] *)

Record collector := {
  formatted_contents : list string;
  included_files : list string;
  total_bytes : Z;
  stdout : list string
}.

Definition print (st : collector) (line : string) : collector :=
  {| formatted_contents := formatted_contents st;
     included_files := included_files st;
     total_bytes := total_bytes st;
     stdout := stdout st ++ [line] |}.

(** [max_bytes and (total_bytes + content_size > max_bytes)]: [None] and [0]
    are both falsy. *)
Definition over_budget (max_bytes : option Z) (total content_size : Z) : bool :=
  match max_bytes with
  | None => false
  | Some m => negb (m =? 0) && (total + content_size >? m)
  end.

Section Collector.

Variable fs : filesystem.
Variables exclude_exts exclude_names : option (list string).
Variable max_bytes : option Z.

(** Lines 53-54: the two rebinding assignments. *)
Definition exclude_exts' : list string := map Py.lower (Py.or_empty exclude_exts).
Definition exclude_names' : list string := Py.or_empty exclude_names.

Definition should_exclude (file_path : string) : bool :=
  let file_name := OsPath.basename file_path in
  let file_ext := Py.lower (snd (OsPath.splitext file_name)) in
  Py.contains file_ext exclude_exts' || Py.contains file_name exclude_names'.

Definition process_file (st : collector) (file_path : string) : collector :=
  if should_exclude file_path then st
  else if is_binary_file fs file_path then
    print st ("Warning: Skipping binary file: " +:+ file_path)
  else
    match read_utf8 fs file_path with
    | ReadOk content =>
        let content_size := Py.utf8_len content in
        if over_budget max_bytes (total_bytes st) content_size then
          print st ("Warning: Skipping " +:+ file_path
                    +:+ " as it would exceed the max bytes limit")
        else
          {| formatted_contents :=
               formatted_contents st ++ [format_file_content file_path content];
             included_files := included_files st ++ [file_path];
             total_bytes := total_bytes st + content_size;
             stdout := stdout st |}
    | ReadUnicodeDecodeError =>
        print st ("Warning: Skipping file with encoding issues: " +:+ file_path)
    | ReadException e =>
        print st ("Error reading file " +:+ file_path +:+ ": " +:+ e)
    end.

(** The body of [for file_path_arg in file_paths]. *)
Definition explicit_step (st : collector) (file_path_arg : string) : collector :=
  if negb (isfile fs file_path_arg) then
    print st ("Warning: File not found or is not a regular file: "
              +:+ file_path_arg)
  else process_file st file_path_arg.

(** The body of [for root, _, files_in_dir in os.walk(dir_path)]. *)
Definition walk_step (st : collector)
    (entry : string * list string * list string) : collector :=
  let '(root, _, files_in_dir) := entry in
  fold_left (fun st file_name => process_file st (OsPath.join root file_name))
    files_in_dir st.

(** The body of [for dir_path in dir_paths]. *)
Definition dir_step (st : collector) (dir_path : string) : collector :=
  if negb (isdir fs dir_path) then
    print st ("Warning: Directory not found: " +:+ dir_path)
  else fold_left walk_step (walk fs dir_path) st.

Definition initial : collector :=
  {| formatted_contents := []; included_files := [];
     total_bytes := 0; stdout := [] |}.

(** The whole body of [get_files_from_paths], keeping the locals. *)
Definition collect (file_paths dir_paths : option (list string)) : collector :=
  let st := fold_left explicit_step (Py.or_empty file_paths) initial in
  fold_left dir_step (Py.or_empty dir_paths) st.

Definition get_files_from_paths (file_paths dir_paths : option (list string))
  : list string * list string :=
  let st := collect file_paths dir_paths in
  (formatted_contents st, included_files st).

End Collector.

(** ** [main]: the prompt and the dry-run summary *)

(** Lines 123-136, from the question and the first component of what
    [get_files_from_paths] returned. *)
Definition final_prompt (question : string) (file_contents_formatted : list string)
  : string :=
  let prompt_parts :=
    match file_contents_formatted with
    | [] => [question]
    | _ => [question; newline +:+ newline
                      +:+ Py.join (newline +:+ newline) file_contents_formatted]
    end in
  Py.join EmptyString prompt_parts.

(** Line 143, run against the file system as it is when the summary is
    printed: [sum(len(open(f, 'r', encoding='utf-8').read().encode('utf-8'))
    for f in included_files) if included_files else 0]. [None] when a read
    raises: nothing catches it there. *)
Fixpoint sum_reread (fs : filesystem) (files : list string) : option Z :=
  match files with
  | [] => Some 0
  | f :: rest =>
      match read_utf8 fs f with
      | ReadOk content =>
          match sum_reread fs rest with
          | Some n => Some (Py.utf8_len content + n)
          | None => None
          end
      | _ => None
      end
  end.

Definition summary_total_bytes (fs : filesystem) (included : list string)
  : option Z :=
  match included with
  | [] => Some 0
  | _ => sum_reread fs included
  end.

(** ** Fixtures: small file systems to run the collector on *)

Module Fixtures.

Definition bytes_of (s : string) : list byte := list_byte_of_string s.

(** A flat file system of text files given as [(path, content)] pairs;
    [dirs] lists what [os.walk] yields for each directory root. *)
Fixpoint lookup_file (files : list (string * string)) (p : string)
  : option string :=
  match files with
  | [] => None
  | (q, c) :: rest => if String.eqb p q then Some c else lookup_file rest p
  end.

Fixpoint lookup_dir (dirs : list (string * list (string * list string * list string)))
    (d : string) : option (list (string * list string * list string)) :=
  match dirs with
  | [] => None
  | (q, w) :: rest => if String.eqb d q then Some w else lookup_dir rest d
  end.

Definition text_fs (files : list (string * string))
    (dirs : list (string * list (string * list string * list string)))
  : filesystem :=
  {| isfile := fun p => bool_decide (is_Some (lookup_file files p));
     isdir := fun d => bool_decide (is_Some (lookup_dir dirs d));
     walk := fun d => default [] (lookup_dir dirs d);
     open_rb := fun p => bytes_of <$> lookup_file files p;
     read_utf8 := fun p =>
       match lookup_file files p with
       | Some c => ReadOk c
       | None => ReadException "No such file or directory"
       end |}.

End Fixtures.

(** ** Vocabulary for the proofs: steps, candidates, reachable states *)

Section Trace.

Variable fs : filesystem.
Variables exclude_exts exclude_names : option (list string).
Variable max_bytes : option Z.

Local Abbreviation process_file := (process_file fs exclude_exts exclude_names max_bytes).
Local Abbreviation should_exclude := (should_exclude exclude_exts exclude_names).

(** The state [process_file] leaves when it reaches lines 82-84. *)
Definition accepted (st : collector) (file_path content : string) : collector :=
  {| formatted_contents :=
       formatted_contents st ++ [format_file_content file_path content];
     included_files := included_files st ++ [file_path];
     total_bytes := total_bytes st + Py.utf8_len content;
     stdout := stdout st |}.

(** Two states with the same lists and the same running total. *)
Definition same_result (st st' : collector) : Prop :=
  formatted_contents st' = formatted_contents st
  ∧ included_files st' = included_files st
  ∧ total_bytes st' = total_bytes st.

(** The paths one triple of the walk hands to [process_file]. *)
Definition walked_files (entry : string * list string * list string)
  : list string :=
  let '(root, _, files_in_dir) := entry in
  map (OsPath.join root) files_in_dir.

(** The paths one directory root hands to [process_file]. *)
Definition walked_root (dir_path : string) : list string :=
  if isdir fs dir_path then flat_map walked_files (walk fs dir_path) else [].

(** The paths handed to [process_file], in the order of the calls:
    the explicit paths that are regular files, then, root by root, what
    the walk yields. *)
Definition candidates (file_paths dir_paths : option (list string))
  : list string :=
  List.filter (isfile fs) (Py.or_empty file_paths)
    ++ flat_map walked_root (Py.or_empty dir_paths).

(** [reachable seen st]: [st] is a state of the collector after the calls
    [process_file p] for the [p] of [seen], in that order, with any number
    of warnings printed in between. *)
Inductive reachable : list string → collector → Prop :=
| reach_initial : reachable [] initial
| reach_print seen st line :
    reachable seen st → reachable seen (print st line)
| reach_process seen st file_path :
    reachable seen st →
    reachable (seen ++ [file_path]) (process_file st file_path).

(** What the block at some position is, given the path at that position. *)
Definition block_of (block file_path : string) : Prop :=
  ∃ content,
    read_utf8 fs file_path = ReadOk content
    ∧ block = format_file_content file_path content.

(** Every included path went through the three gates. *)
Definition passed (file_path : string) : Prop :=
  should_exclude file_path = false
  ∧ is_binary_file fs file_path = false
  ∧ ∃ content, read_utf8 fs file_path = ReadOk content.

End Trace.

(** ** Vocabulary for the proofs: extensions *)

(** The index of the last [c] in [s], by recursion on [s]. *)
Fixpoint last_occ (c : ascii) (s : string) : option nat :=
  match s with
  | EmptyString => None
  | String a r =>
      match last_occ c r with
      | Some k => Some (S k)
      | None => if Ascii.eqb a c then Some O else None
      end
  end.

Definition only_dots (s : string) : bool :=
  forallb (Ascii.eqb OsPath.extsep) (list_ascii_of_string s).

(** The extension in the words of the specification: the substring from the
    last ['.'] inclusive, empty when there is none. *)
Definition spec_extension (file_name : string) : string :=
  let d := Py.rfind OsPath.extsep file_name in
  if d <? 0 then EmptyString else Py.drop_str (Z.to_nat d) file_name.

(** The same, except that a last ['.'] with nothing but ['.'] before it
    starts no extension. *)
Definition dotted_extension (file_name : string) : string :=
  let d := Py.rfind OsPath.extsep file_name in
  if d <? 0 then EmptyString
  else if only_dots (Py.take_str (Z.to_nat d) file_name) then EmptyString
  else Py.drop_str (Z.to_nat d) file_name.

(** The extension [should_exclude] computes for a path. *)
Definition extension (file_path : string) : string :=
  snd (OsPath.splitext (OsPath.basename file_path)).

(** ** Fixtures of the individual properties *)

Module BudgetFixture.

Import Fixtures.

(** Three text files of 4, 4 and 1 bytes. *)
Definition fs : filesystem :=
  text_fs [("a.txt", "aaaa"); ("b.txt", "bbbb"); ("c.txt", "c")] [].

Definition run (max_bytes : option Z) (file_paths : list string) : collector :=
  collect fs None None max_bytes (Some file_paths) None.

End BudgetFixture.

Module DuplicateFixture.

Import Fixtures.

(** [a.txt] at the top and [d/a.txt] under the directory [d]. *)
Definition fs : filesystem :=
  text_fs [("a.txt", "hello"); ("d/a.txt", "hi")]
          [("d", [("d", [], ["a.txt"])])].

End DuplicateFixture.

Module BinaryFixture.

Import Fixtures.

(** [blob.txt]: a NUL as third byte, and for the rest valid UTF-8 text. *)
Definition fs : filesystem :=
  text_fs [("blob.txt", String "h" (String "i" (String "000" "and some text")));
           ("a.txt", "hello")] [].

(** Every path is a regular file that reads as text and that a binary
    open refuses. *)
Definition locked : filesystem :=
  {| isfile := λ _, true;
     isdir := λ _, false;
     walk := λ _, [];
     open_rb := λ _, None;
     read_utf8 := λ _, ReadOk "text" |}.

End BinaryFixture.

Module SummaryFixture.

Import Fixtures.

(** [BudgetFixture.fs] after [b.txt] was rewritten. *)
Definition later : filesystem :=
  text_fs [("a.txt", "aaaa"); ("b.txt", "rewritten"); ("c.txt", "c")] [].

End SummaryFixture.

Module EdgeFixture.

Import Fixtures.

(** An empty file and a file of four bytes. *)
Definition fs : filesystem :=
  text_fs [("e.txt", EmptyString); ("a.txt", "aaaa")] [].

End EdgeFixture.

Module PromptFixture.

Import Fixtures.

Definition fs : filesystem := text_fs [("a.txt", "hello")] [].

(** A content with a triple quote in it. *)
Definition quoted : string := "x = " +:+ triple_quote +:+ "doc" +:+ triple_quote.

End PromptFixture.

Module ExcludeFixture.

Import Fixtures.

(** A picture, a dot file and a note, all of them readable as text. *)
Definition fs : filesystem :=
  text_fs [("img/a.png", "P"); (".env", "KEY=1"); ("notes.txt", "n")] [].

End ExcludeFixture.

(** ** [load_env_file], [configure_api] and [main] *)

Module Main.

(** The calls that reach outside the process, in the order they are made. *)
Inductive event :=
| Print (line : string)
| LoadDotenv (dotenv_path : option string)
| Getenv (name : string)
| GenaiConfigure (api_key : string)
| GenerateContent (model prompt : string)
| WriteFile (path text : string).

(** How [main] ends: it returns, [exit(code)] is called, or an exception
    that nothing catches leaves it. *)
Inductive outcome :=
| Returned
| Exited (code : Z)
| Uncaught.

(** [response.text]: absent ([hasattr] is false), a string, or an accessor
    that raises. *)
Inductive text_attr :=
| NoText
| HasText (text : string)
| TextRaises (e : string).

(** The response object: the [text] of each of its [parts], its [text]
    attribute and what [str(response)] gives. *)
Record response := {
  parts : list string;
  text : text_attr;
  repr : string
}.

(** What lines 154-157 meet: [generate_content], or the access to
    [response.parts] and to the [text] of a part, raises an exception of
    message [e], or a response comes back. *)
Inductive api_result :=
| ApiRaises (e : string)
| ApiReturns (r : response).

(** The answers of the outside. A [Some e] stands for an exception whose
    message is [e]. *)
Record world := {
  (** the file system during the collection, and when line 143 re-reads *)
  fs_now : filesystem;
  fs_later : filesystem;
  (** [os.path.dirname(os.path.abspath(__file__))] *)
  script_dir : string;
  (** [os.path.exists] *)
  path_exists : string → bool;
  (** what [load_dotenv()] returns *)
  load_dotenv_default : bool;
  (** [os.getenv("GEMINI_API_KEY")] at line 22 *)
  getenv_api_key : option string;
  (** [genai.configure(api_key=...)] *)
  genai_configure : string → option string;
  (** [genai.GenerativeModel(name)] *)
  generative_model : string → option string;
  (** [model.generate_content(prompt)], by model name *)
  generate_content : string → string → api_result;
  (** [open(path, 'w', encoding='utf-8')] and [f.write(text)] *)
  write_text : string → string → option string
}.

(** The parsed command line. *)
Record args := {
  question : string;
  file : list string;
  dir : list string;
  dry_run : bool;
  output : option string;
  exclude_ext : list string;
  exclude_name : list string;
  max_bytes : option Z;
  model : string
}.

Definition load_env_file (w : world) : list event * bool :=
  let script_dir_env := OsPath.join (script_dir w) ".env" in
  if path_exists w script_dir_env then
    ([LoadDotenv (Some script_dir_env)], true)
  else if load_dotenv_default w then ([LoadDotenv None], true)
  else ([LoadDotenv None], false).

(** [configure_api]: the calls made, and [Some code] when it exits. *)
Definition configure_api (w : world) : list event * option Z :=
  let loaded := fst (load_env_file w) ++ [Getenv "GEMINI_API_KEY"] in
  match getenv_api_key w with
  | None | Some EmptyString =>
      (loaded ++ [Print "Error: GEMINI_API_KEY environment variable not set."],
       Some 1)
  | Some api_key =>
      match genai_configure w api_key with
      | None => (loaded ++ [GenaiConfigure api_key], None)
      | Some e =>
          (loaded ++ [GenaiConfigure api_key;
                      Print ("Error configuring Gemini API: " +:+ e)],
           Some 1)
      end
  end.

(** [str(n)] for a natural number, and the format [{:,}] of an integer. *)
Definition decimal (n : nat) : string :=
  NilEmpty.string_of_uint (Nat.to_uint n).

Fixpoint group3 (digits : string) : string :=
  match digits with
  | EmptyString => EmptyString
  | String c r =>
      let k := String.length r in
      if Nat.eqb (k mod 3) 0 && negb (Nat.eqb k 0)
      then String c (String "," (group3 r))
      else String c (group3 r)
  end.

Definition format_commas (z : Z) : string :=
  if z <? 0 then "-" +:+ group3 (decimal (Z.to_nat (- z)))
  else group3 (decimal (Z.to_nat z)).

(** Lines 145-146: [for i, file_path in enumerate(included_files)]. *)
Fixpoint listing (i : nat) (included : list string) : list event :=
  match included with
  | [] => []
  | file_path :: rest =>
      Print ("  " +:+ decimal (i + 1) +:+ ". " +:+ file_path)
        :: listing (S i) rest
  end.

(** Lines 156-165: the text taken from the response and what is printed
    on the way, or the message of the exception raised. *)
Definition response_text (r : response) : string * list event + string :=
  match parts r with
  | _ :: _ => inl (fold_left (λ acc part, acc +:+ part) (parts r) EmptyString, [])
  | [] =>
      match text r with
      | HasText t => inl (t, [])
      | TextRaises e => inr e
      | NoText =>
          inl ("Error: Could not extract text from response.",
               [Print ("Raw response: " +:+ repr r)])
      end
  end.

(** [print("\nAI Response:\n", response_text)]. *)
Definition print_response (response_text : string) : event :=
  Print (newline +:+ "AI Response:" +:+ newline +:+ " " +:+ response_text).

(** Lines 168-177. *)
Definition deliver (w : world) (a : args) (response_text : string)
  : list event :=
  match output a with
  | None | Some EmptyString => [print_response response_text]
  | Some path =>
      match write_text w path response_text with
      | None =>
          [WriteFile path response_text; Print ("Response saved to " +:+ path)]
      | Some e =>
          [WriteFile path response_text;
           Print ("Error saving response to file " +:+ path +:+ ": " +:+ e);
           print_response response_text]
      end
  end.

Definition api_error (e : string) : event :=
  Print ("An error occurred while interacting with the Gemini API: " +:+ e).

(** Lines 151-180, the [try] block and its handler. *)
Definition ask (w : world) (a : args) (final_prompt : string) : list event :=
  match generative_model w (model a) with
  | Some e => [api_error e]
  | None =>
      [Print ("Sending request to Gemini API using model " +:+ model a +:+ "...");
       GenerateContent (model a) final_prompt]
      ++ match generate_content w (model a) final_prompt with
         | ApiRaises e => [api_error e]
         | ApiReturns r =>
             match response_text r with
             | inr e => [api_error e]
             | inl (text, printed) => printed ++ deliver w a text
             end
         end
  end.

(** The state of the collector when [get_files_from_paths] returns to
    [main]. *)
Definition collected (w : world) (a : args) : collector :=
  collect (fs_now w) (Some (exclude_ext a)) (Some (exclude_name a))
    (max_bytes a) (Some (file a)) (Some (dir a)).

(** Lines 138-147. *)
Definition dry_run_report (w : world) (prompt : string) (included : list string)
  : list event * outcome :=
  let shown :=
    [Print "--- Prompt for AI (Dry Run) ---";
     Print prompt;
     Print "-------------------------------";
     Print (newline +:+ "Included Files Summary ("
            +:+ decimal (length included) +:+ " files):")] in
  match summary_total_bytes (fs_later w) included with
  | None => (shown, Uncaught)
  | Some total =>
      (shown ++ [Print ("Total size: " +:+ format_commas total +:+ " bytes")]
         ++ listing 0 included,
       Returned)
  end.

Definition main (w : world) (a : args) : list event * outcome :=
  let st := collected w a in
  let prompt := final_prompt (question a) (formatted_contents st) in
  let warnings := map Print (stdout st) in
  if dry_run a then
    let '(report, how) := dry_run_report w prompt (included_files st) in
    (warnings ++ report, how)
  else
    match configure_api w with
    | (configured, Some code) => (warnings ++ configured, Exited code)
    | (configured, None) => (warnings ++ configured ++ ask w a prompt, Returned)
    end.

(** The same command line with the dry-run flag set to [b]. *)
Definition with_dry_run (b : bool) (a : args) : args :=
  {| question := question a; file := file a; dir := dir a; dry_run := b;
     output := output a; exclude_ext := exclude_ext a;
     exclude_name := exclude_name a; max_bytes := max_bytes a;
     model := model a |}.

Definition is_print (e : event) : Prop := ∃ line, e = Print line.

End Main.

Module LateNulFixture.

(** [big.txt]: 1024 letters, then a NUL, then more text. *)
Definition head : list byte := replicate 1024 x61.
Definition tail : list byte := [x00; x62; x63].

Definition content : string := string_of_list_byte (head ++ tail).

Definition fs : filesystem :=
  {| isfile := λ _, true;
     isdir := λ _, false;
     walk := λ _, [];
     open_rb := λ _, Some (head ++ tail);
     read_utf8 := λ _, ReadOk content |}.

End LateNulFixture.

Module MainFixture.

(** No key anywhere, no [.env]. *)
Definition quiet : Main.world :=
  {| Main.fs_now := BudgetFixture.fs;
     Main.fs_later := BudgetFixture.fs;
     Main.script_dir := "/opt/tool";
     Main.path_exists := λ _, false;
     Main.load_dotenv_default := false;
     Main.getenv_api_key := None;
     Main.genai_configure := λ _, None;
     Main.generative_model := λ _, None;
     Main.generate_content := λ _ _, Main.ApiRaises "offline";
     Main.write_text := λ _ _, None |}.

Definition answer : Main.response :=
  {| Main.parts := ["Hel"; "lo"];
     Main.text := Main.HasText "ignored";
     Main.repr := "<response>" |}.

(** A key in the environment, a client that answers, and a directory [ro]
    that cannot be written to. *)
Definition online : Main.world :=
  {| Main.fs_now := BudgetFixture.fs;
     Main.fs_later := SummaryFixture.later;
     Main.script_dir := "/opt/tool";
     Main.path_exists := λ _, true;
     Main.load_dotenv_default := false;
     Main.getenv_api_key := Some "secret";
     Main.genai_configure := λ _, None;
     Main.generative_model := λ _, None;
     Main.generate_content := λ _ _, Main.ApiReturns answer;
     Main.write_text :=
       λ path _, if String.eqb path "ro/out.txt" then Some "Permission denied"
                 else None |}.

(** The same with a client that raises. *)
Definition failing : Main.world :=
  {| Main.fs_now := BudgetFixture.fs;
     Main.fs_later := BudgetFixture.fs;
     Main.script_dir := "/opt/tool";
     Main.path_exists := λ _, true;
     Main.load_dotenv_default := false;
     Main.getenv_api_key := Some "secret";
     Main.genai_configure := λ _, None;
     Main.generative_model := λ _, None;
     Main.generate_content := λ _ _, Main.ApiRaises "quota exceeded";
     Main.write_text := λ _ _, None |}.

Definition command (dry : bool) (out : option string) : Main.args :=
  {| Main.question := "Summarize";
     Main.file := ["a.txt"; "nope"; "b.txt"; "c.txt"];
     Main.dir := [];
     Main.dry_run := dry;
     Main.output := out;
     Main.exclude_ext := [];
     Main.exclude_name := [];
     Main.max_bytes := Some 5;
     Main.model := "gemini-2.0-flash" |}.

End MainFixture.

(** ** Vocabulary for the proofs: what a run lets through *)

(** The three gates of [process_file] before the budget check. *)
Definition eligible (fs : filesystem) (ee en : option (list string))
    (file_path : string) : bool :=
  negb (should_exclude ee en file_path)
  && negb (is_binary_file fs file_path)
  && match read_utf8 fs file_path with
     | ReadOk _ => true
     | _ => false
     end.

(** [st'] continues [st]: nothing was removed or reordered. *)
Definition extends (st st' : collector) : Prop :=
  formatted_contents st `prefix_of` formatted_contents st'
  ∧ included_files st `prefix_of` included_files st'
  ∧ stdout st `prefix_of` stdout st'
  ∧ total_bytes st ≤ total_bytes st'.

(** The traces a state holds: printed lines and included files. *)
Definition accounted (st : collector) : nat :=
  (length (stdout st) + length (included_files st))%nat.

(** How many of the paths are not excluded. *)
Definition kept (ee en : option (list string)) (paths : list string) : nat :=
  length (List.filter (λ p, negb (should_exclude ee en p)) paths).

Definition not_found_file (file_path_arg : string) : string :=
  "Warning: File not found or is not a regular file: " +:+ file_path_arg.

Definition not_found_dir (dir_path : string) : string :=
  "Warning: Directory not found: " +:+ dir_path.

(** * Properties *)

(** ** The run as a sequence of steps *)

Section RunFacts.

Variable fs : filesystem.
Variables ee en : option (list string).
Variable mb : option Z.

Lemma process_file_cases st file_path :
  (same_result st (process_file fs ee en mb st file_path))
  ∨ (∃ content,
        should_exclude ee en file_path = false
        ∧ is_binary_file fs file_path = false
        ∧ read_utf8 fs file_path = ReadOk content
        ∧ over_budget mb (total_bytes st) (Py.utf8_len content) = false
        ∧ process_file fs ee en mb st file_path = accepted st file_path content).
Proof.
  unfold process_file.
  destruct (should_exclude ee en file_path) eqn:Hex; [left; done|].
  destruct (is_binary_file fs file_path) eqn:Hbin; [left; done|].
  destruct (read_utf8 fs file_path) as [content| |e] eqn:Hread;
    [|left; done|left; done].
  destruct (over_budget _ _ _) eqn:Hover; [left; done|].
  right. exists content. done.
Qed.

Lemma reachable_explicit file_paths : ∀ seen st,
  reachable fs ee en mb seen st →
  reachable fs ee en mb (seen ++ List.filter (isfile fs) file_paths)
    (fold_left (explicit_step fs ee en mb) file_paths st).
Proof.
  induction file_paths as [|p rest IH]; intros seen st Hst; simpl.
  - by rewrite app_nil_r.
  - unfold explicit_step at 2.
    destruct (isfile fs p); simpl.
    + rewrite cons_middle, app_assoc.
      apply IH. by constructor.
    + apply IH. by constructor.
Qed.

Lemma reachable_files root files : ∀ seen st,
  reachable fs ee en mb seen st →
  reachable fs ee en mb (seen ++ map (OsPath.join root) files)
    (fold_left
       (λ st file_name, process_file fs ee en mb st (OsPath.join root file_name))
       files st).
Proof.
  induction files as [|f rest IH]; intros seen st Hst; simpl.
  - by rewrite app_nil_r.
  - rewrite cons_middle, app_assoc.
    apply IH. by constructor.
Qed.

Lemma reachable_walk entries : ∀ seen st,
  reachable fs ee en mb seen st →
  reachable fs ee en mb (seen ++ flat_map walked_files entries)
    (fold_left (walk_step fs ee en mb) entries st).
Proof.
  induction entries as [|[[root dirs] files] rest IH]; intros seen st Hst; simpl.
  - by rewrite app_nil_r.
  - rewrite app_assoc. apply IH. by apply reachable_files.
Qed.

Lemma reachable_dirs dir_paths : ∀ seen st,
  reachable fs ee en mb seen st →
  reachable fs ee en mb (seen ++ flat_map (walked_root fs) dir_paths)
    (fold_left (dir_step fs ee en mb) dir_paths st).
Proof.
  induction dir_paths as [|d rest IH]; intros seen st Hst; simpl.
  - by rewrite app_nil_r.
  - rewrite app_assoc. apply IH.
    unfold dir_step, walked_root. destruct (isdir fs d); simpl.
    + by apply reachable_walk.
    + rewrite app_nil_r. by constructor.
Qed.

(** The run of [get_files_from_paths] is such a sequence of steps, over
    exactly the candidates. *)
Lemma collect_reachable file_paths dir_paths :
  reachable fs ee en mb (candidates fs file_paths dir_paths)
    (collect fs ee en mb file_paths dir_paths).
Proof.
  unfold collect, candidates.
  apply reachable_dirs.
  apply (reachable_explicit _ [] initial). constructor.
Qed.

(** ** Invariants of the run *)

Lemma utf8_len_nonneg (s : string) : 0 ≤ Py.utf8_len s.
Proof.
  induction s as [|c r IH]; simpl; [lia|].
  unfold Py.utf8_char_len. destruct (Nat.ltb _ _); lia.
Qed.

Lemma over_budget_false_le (m total size : Z) :
  m ≠ 0 → over_budget (Some m) total size = false → total + size ≤ m.
Proof.
  unfold over_budget. intros Hm H.
  destruct (Z.eqb_spec m 0) as [->|_]; [done|]. simpl in H.
  destruct (Z.gtb_spec (total + size) m); [done|lia].
Qed.

Lemma over_budget_true_gt (m total size : Z) :
  over_budget (Some m) total size = true → m ≠ 0 ∧ total + size > m.
Proof.
  unfold over_budget. intros H.
  destruct (Z.eqb_spec m 0) as [->|Hm]; [done|]. simpl in H.
  destruct (Z.gtb_spec (total + size) m); [lia|done].
Qed.

Lemma sum_reread_snoc (fs' : filesystem) files file_path content n :
  sum_reread fs' files = Some n →
  read_utf8 fs' file_path = ReadOk content →
  sum_reread fs' (files ++ [file_path]) = Some (n + Py.utf8_len content).
Proof.
  revert n. induction files as [|f rest IH]; intros n Hsum Hread; simpl in *.
  - rewrite Hread. injection Hsum as <-. f_equal. lia.
  - destruct (read_utf8 fs' f) as [c| |]; try done.
    destruct (sum_reread fs' rest) as [k|]; try done.
    injection Hsum as <-. rewrite (IH k eq_refl Hread). f_equal. lia.
Qed.

Lemma reachable_blocks seen st :
  reachable fs ee en mb seen st →
  Forall2 (block_of fs) (formatted_contents st) (included_files st).
Proof.
  induction 1 as [|seen st line _ IH|seen st p _ IH]; simpl.
  - constructor.
  - exact IH.
  - destruct (process_file_cases st p) as [(-> & -> & _)|(c & _ & _ & Hr & _ & ->)];
      [exact IH|]. simpl.
    apply Forall2_app; [exact IH|]. repeat constructor. by exists c.
Qed.

(** The running total is the encoded size of what was included. *)
Lemma reachable_total seen st :
  reachable fs ee en mb seen st →
  sum_reread fs (included_files st) = Some (total_bytes st).
Proof.
  induction 1 as [|seen st line _ IH|seen st p _ IH]; simpl.
  - done.
  - exact IH.
  - destruct (process_file_cases st p) as [(_ & -> & ->)|(c & _ & _ & Hr & _ & ->)];
      [exact IH|]. simpl.
    by apply sum_reread_snoc.
Qed.

Lemma reachable_total_nonneg seen st :
  reachable fs ee en mb seen st → 0 ≤ total_bytes st.
Proof.
  induction 1 as [|seen st line _ IH|seen st p _ IH]; simpl.
  - done.
  - exact IH.
  - destruct (process_file_cases st p) as [(_ & _ & ->)|(c & _ & _ & _ & _ & ->)];
      [exact IH|]. simpl.
    pose proof (utf8_len_nonneg c). lia.
Qed.

Lemma reachable_passed seen st :
  reachable fs ee en mb seen st → Forall (passed fs ee en) (included_files st).
Proof.
  induction 1 as [|seen st line _ IH|seen st p _ IH]; simpl.
  - constructor.
  - exact IH.
  - destruct (process_file_cases st p) as [(_ & -> & _)|(c & Hx & Hb & Hr & _ & ->)];
      [exact IH|]. simpl.
    apply Forall_app. split; [exact IH|]. repeat constructor; eauto.
Qed.

(** The included paths are the processed ones with some left out. *)
Lemma reachable_sublist seen st :
  reachable fs ee en mb seen st → included_files st `sublist_of` seen.
Proof.
  induction 1 as [|seen st line _ IH|seen st p _ IH]; simpl.
  - constructor.
  - exact IH.
  - destruct (process_file_cases st p) as [(_ & -> & _)|(c & _ & _ & _ & _ & ->)].
    + by apply sublist_inserts_r.
    + simpl. by apply sublist_app.
Qed.

(** With a positive budget the running total stays within it. *)
Lemma reachable_within_budget m seen st :
  mb = Some m → 0 < m → reachable fs ee en mb seen st → total_bytes st ≤ m.
Proof.
  intros Hmax Hm.
  induction 1 as [|seen st line _ IH|seen st p _ IH]; simpl.
  - lia.
  - exact IH.
  - destruct (process_file_cases st p) as [(_ & _ & ->)|(c & _ & _ & _ & Hover & ->)];
      [exact IH|]. simpl.
    rewrite Hmax in Hover. apply over_budget_false_le in Hover; lia.
Qed.

End RunFacts.

(** ** The byte budget *)

Lemma process_file_accepts fs ee en mb st file_path content :
  should_exclude ee en file_path = false →
  is_binary_file fs file_path = false →
  read_utf8 fs file_path = ReadOk content →
  over_budget mb (total_bytes st) (Py.utf8_len content) = false →
  process_file fs ee en mb st file_path = accepted st file_path content.
Proof.
  intros Hx Hb Hr Ho. unfold process_file. by rewrite Hx, Hb, Hr, Ho.
Qed.






(** The scenario of the specification: budget 5, two files of 4 bytes. *)
Example budget_scenario :
  let st := BudgetFixture.run (Some 5) ["a.txt"; "b.txt"] in
  included_files st = ["a.txt"]
  ∧ total_bytes st = 4
  ∧ stdout st = ["Warning: Skipping b.txt as it would exceed the max bytes limit"].
Proof. by vm_compute. Qed.

(** ** One call of [process_file] per candidate *)

Lemma sublist_count_occ (l1 l2 : list string) (x : string) :
  l1 `sublist_of` l2 →
  (count_occ String.string_dec l1 x ≤ count_occ String.string_dec l2 x)%nat.
Proof.
  induction 1 as [|y l1 l2 _ IH|y l1 l2 _ IH]; simpl.
  - lia.
  - destruct (String.string_dec y x); lia.
  - destruct (String.string_dec y x); lia.
Qed.

Lemma over_budget_unbounded (mb : option Z) (total size : Z) :
  mb = None ∨ mb = Some 0 → over_budget mb total size = false.
Proof. by intros [->| ->]. Qed.

Lemma process_file_unbounded fs ee en mb st file_path :
  mb = None ∨ mb = Some 0 →
  included_files (process_file fs ee en mb st file_path)
  = included_files st ++ List.filter (eligible fs ee en) [file_path].
Proof.
  intros Hmb. unfold process_file, eligible. simpl.
  destruct (should_exclude ee en file_path); simpl; [by rewrite app_nil_r|].
  destruct (is_binary_file fs file_path); simpl; [by rewrite app_nil_r|].
  destruct (read_utf8 fs file_path) as [c| |e]; simpl;
    try by rewrite app_nil_r.
  by rewrite (over_budget_unbounded mb _ _ Hmb).
Qed.

Lemma unbounded_included fs ee en mb seen st :
  mb = None ∨ mb = Some 0 →
  reachable fs ee en mb seen st →
  included_files st = List.filter (eligible fs ee en) seen.
Proof.
  intros Hmb. induction 1 as [|seen st line _ IH|seen st p _ IH];
    [done|exact IH|].
  rewrite List.filter_app, <- IH. by apply process_file_unbounded.
Qed.

Lemma count_occ_filter (f : string → bool) (l : list string) (x : string) :
  count_occ String.string_dec (List.filter f l) x
  = if f x then count_occ String.string_dec l x else O.
Proof.
  induction l as [|y rest IH]; simpl; [by destruct (f x)|].
  destruct (f y) eqn:Hy; simpl; destruct (String.string_dec y x) as [->|Hne];
    rewrite ?IH; try done.
  - by rewrite Hy.
  - by rewrite Hy.
Qed.

(** C2, as the code has it. The collector keeps no record of the paths it
    has seen: every occurrence of a path among the candidates (the explicit
    regular files in argument order, then what each walk yields) is handed
    to [process_file] once, so the included paths are the candidates in
    order with some left out, one block each. A path is included at most
    as many times as it occurs among the candidates, hence at most once
    when the candidates hold no duplicate. A call on a path that passes
    the filters and fits the budget appends the path and its block whether
    or not the path is in the list already; so when no budget is in force
    a path that passes the filters is included exactly as many times as it
    occurs among the candidates. *)
Theorem included_once_per_candidate fs ee en mb file_paths dir_paths :
  let st := collect fs ee en mb file_paths dir_paths in
  let cands := candidates fs file_paths dir_paths in
  reachable fs ee en mb cands st
  ∧ included_files st `sublist_of` cands
  ∧ length (formatted_contents st) = length (included_files st)
  ∧ (∀ file_path,
       (count_occ String.string_dec (included_files st) file_path
        ≤ count_occ String.string_dec cands file_path)%nat)
  ∧ (NoDup cands → NoDup (included_files st))
  ∧ (∀ st0 file_path content,
       should_exclude ee en file_path = false →
       is_binary_file fs file_path = false →
       read_utf8 fs file_path = ReadOk content →
       over_budget mb (total_bytes st0) (Py.utf8_len content) = false →
       included_files (process_file fs ee en mb st0 file_path)
       = included_files st0 ++ [file_path]
       ∧ formatted_contents (process_file fs ee en mb st0 file_path)
         = formatted_contents st0 ++ [format_file_content file_path content])
  ∧ (mb = None ∨ mb = Some 0 →
     included_files st = List.filter (eligible fs ee en) cands
     ∧ ∀ file_path,
         eligible fs ee en file_path = true →
         count_occ String.string_dec (included_files st) file_path
         = count_occ String.string_dec cands file_path).
Proof.
  intros st cands.
  assert (Hreach : reachable fs ee en mb cands st) by apply collect_reachable.
  assert (Hsub := reachable_sublist _ _ _ _ _ _ Hreach).
  split_and!.
  - exact Hreach.
  - exact Hsub.
  - exact (Forall2_length _ _ _ (reachable_blocks _ _ _ _ _ _ Hreach)).
  - intros p. by apply sublist_count_occ.
  - intros Hnd. by eapply sublist_NoDup.
  - intros st0 p c Hx Hb Hr Ho.
    by rewrite (process_file_accepts fs ee en mb st0 p c Hx Hb Hr Ho).
  - intros Hmb.
    pose proof (unbounded_included fs ee en mb cands st Hmb Hreach) as Hinc.
    split; [exact Hinc|].
    intros p Hp. by rewrite Hinc, count_occ_filter, Hp.
Qed.

Lemma included_once_per_candidate_witness :
  NoDup (included_files
           (collect DuplicateFixture.fs None None None
              (Some ["a.txt"; "d/a.txt"]) None))
  ∧ count_occ String.string_dec
      (included_files
         (collect DuplicateFixture.fs None None None
            (Some ["a.txt"; "d/a.txt"; "a.txt"]) None)) "a.txt"
    = 2%nat.
Proof.
  split.
  - apply (included_once_per_candidate DuplicateFixture.fs None None None
             (Some ["a.txt"; "d/a.txt"]) None).
    refine (bool_decide_unpack _ _). by vm_compute.
  - destruct (included_once_per_candidate DuplicateFixture.fs None None None
                (Some ["a.txt"; "d/a.txt"; "a.txt"]) None)
      as (_ & _ & _ & _ & _ & _ & Hcount).
    destruct (Hcount (or_introl eq_refl)) as [_ Heq].
    rewrite (Heq "a.txt" eq_refl). reflexivity.
Defined.

(** C2 as stated fails: a path given twice is read and included twice, and
    so is a path given explicitly and found again under a directory root. *)
Lemma included_twice_counterexample :
  (get_files_from_paths DuplicateFixture.fs None None None
     (Some ["a.txt"; "a.txt"]) None
   = ([format_file_content "a.txt" "hello"; format_file_content "a.txt" "hello"],
      ["a.txt"; "a.txt"]))
  ∧ (included_files
       (collect DuplicateFixture.fs None None None (Some ["d/a.txt"]) (Some ["d"]))
     = ["d/a.txt"; "d/a.txt"])
  ∧ ¬ NoDup (included_files
               (collect DuplicateFixture.fs None None None
                  (Some ["a.txt"; "a.txt"]) None)).
Proof.
  split_and!; [reflexivity|reflexivity|].
  intros Hnd. vm_compute in Hnd. apply NoDup_cons_1_1 in Hnd.
  apply Hnd. constructor.
Qed.

(** ** Binary detection *)

Lemma existsb_is_nul (bytes : list byte) :
  existsb is_nul bytes = true ↔ x00 ∈ bytes.
Proof.
  rewrite existsb_exists. split.
  - intros (b & Hin & Hb). apply Byte.byte_dec_bl in Hb. subst b.
    by apply list_elem_of_In.
  - intros Hin. exists x00. split; [by apply list_elem_of_In|done].
Qed.

Lemma not_included_unless_passed fs ee en mb seen st file_path :
  reachable fs ee en mb seen st →
  file_path ∈ included_files st →
  passed fs ee en file_path.
Proof.
  intros Hreach Hin.
  pose proof (reachable_passed _ _ _ _ _ _ Hreach) as Hall.
  rewrite Forall_forall in Hall. by apply Hall.
Qed.

(** C5. A file with a NUL byte among its first 1024 bytes is classified as
    binary, and so is a file whose binary open or read raises; in both
    cases [process_file] returns normally with both lists and the running
    total untouched, whatever a text read of the file would give, and the
    path is absent from the result of the run. *)
Theorem binary_never_collected fs ee en mb file_paths dir_paths file_path :
  open_rb fs file_path = None
  ∨ (∃ bytes, open_rb fs file_path = Some bytes ∧ x00 ∈ take 1024 bytes) →
  is_binary_file fs file_path = true
  ∧ (∀ st, same_result st (process_file fs ee en mb st file_path))
  ∧ (∀ st, should_exclude ee en file_path = false →
       process_file fs ee en mb st file_path
       = print st ("Warning: Skipping binary file: " +:+ file_path))
  ∧ (file_path ∉ included_files (collect fs ee en mb file_paths dir_paths))
  ∧ (file_path ∉ snd (get_files_from_paths fs ee en mb file_paths dir_paths)).
Proof.
  intros Hprobe.
  assert (Hbin : is_binary_file fs file_path = true).
  { unfold is_binary_file.
    destruct Hprobe as [->|(bytes & -> & Hnul)]; [done|].
    by apply existsb_is_nul. }
  assert (Hout : file_path ∉ included_files (collect fs ee en mb file_paths dir_paths)).
  { intros Hin.
    destruct (not_included_unless_passed _ _ _ _ _ _ _
                (collect_reachable fs ee en mb file_paths dir_paths) Hin)
      as (_ & Hnb & _).
    congruence. }
  split_and!; try done.
  - intros st. unfold process_file.
    destruct (should_exclude ee en file_path); [done|]. by rewrite Hbin.
  - intros st Hx. unfold process_file. by rewrite Hx, Hbin.
Qed.

Lemma binary_never_collected_witness :
  is_binary_file BinaryFixture.fs "blob.txt" = true
  ∧ "blob.txt" ∉ included_files
        (collect BinaryFixture.fs None None None
           (Some ["blob.txt"; "a.txt"]) None).
Proof.
  pose proof (binary_never_collected BinaryFixture.fs None None None
                (Some ["blob.txt"; "a.txt"]) None "blob.txt") as H.
  destruct H as (Hb & _ & _ & Hout & _).
  - right. eexists. split; [reflexivity|]. vm_compute.
    do 2 apply list_elem_of_further. apply list_elem_of_here.
  - by split.
Defined.

(** The file of the fixture reads as text without error, and is skipped. *)
Example binary_fixture_run :
  read_utf8 BinaryFixture.fs "blob.txt"
  = ReadOk (String "h" (String "i" (String "000" "and some text")))
  ∧ get_files_from_paths BinaryFixture.fs None None None
      (Some ["blob.txt"; "a.txt"]) None
    = ([format_file_content "a.txt" "hello"], ["a.txt"]).
Proof. by vm_compute. Qed.

(** A file the probe cannot open is skipped with the same warning. *)
Example unreadable_probe_run :
  collect BinaryFixture.locked None None None (Some ["x.txt"]) None
  = print initial "Warning: Skipping binary file: x.txt".
Proof. by vm_compute. Qed.

(** ** The dry-run summary *)

Lemma sum_reread_ext (fs fs' : filesystem) (files : list string) :
  (∀ f, f ∈ files → read_utf8 fs' f = read_utf8 fs f) →
  sum_reread fs' files = sum_reread fs files.
Proof.
  induction files as [|f rest IH]; intros Hsame; simpl; [done|].
  rewrite (Hsame f) by apply list_elem_of_here.
  rewrite IH; [done|]. intros g Hg. apply Hsame. by apply list_elem_of_further.
Qed.

(** C8. If every included file reads, when the summary is printed, as it
    read during collection, the total recomputed by the summary is the
    running total of the collection. *)
Theorem summary_matches_running_total fs fs' ee en mb file_paths dir_paths :
  let st := collect fs ee en mb file_paths dir_paths in
  (∀ f, f ∈ included_files st → read_utf8 fs' f = read_utf8 fs f) →
  summary_total_bytes fs' (included_files st) = Some (total_bytes st).
Proof.
  intros st Hsame.
  pose proof (reachable_total _ _ _ _ _ _
                (collect_reachable fs ee en mb file_paths dir_paths)) as Htot.
  fold st in Htot.
  unfold summary_total_bytes.
  destruct (included_files st) as [|f rest] eqn:Hinc.
  - exact Htot.
  - rewrite <- Htot. by apply sum_reread_ext.
Qed.

Lemma summary_matches_running_total_witness :
  summary_total_bytes SummaryFixture.later
    (included_files (BudgetFixture.run (Some 5) ["a.txt"; "b.txt"; "c.txt"]))
  = Some (total_bytes (BudgetFixture.run (Some 5) ["a.txt"; "b.txt"; "c.txt"])).
Proof.
  apply (summary_matches_running_total BudgetFixture.fs SummaryFixture.later
           None None (Some 5) (Some ["a.txt"; "b.txt"; "c.txt"]) None).
  intros f Hf. vm_compute in Hf.
  apply elem_of_cons in Hf as [->|Hf]; [reflexivity|].
  apply elem_of_cons in Hf as [->|Hf]; [reflexivity|].
  by apply elem_of_nil in Hf.
Defined.

(** Without the assumption the two totals part: one included file grew. *)
Example summary_diverges :
  summary_total_bytes SummaryFixture.later
    (included_files (BudgetFixture.run None ["a.txt"; "b.txt"]))
  = Some 13
  ∧ total_bytes (BudgetFixture.run None ["a.txt"; "b.txt"]) = 8.
Proof. by vm_compute. Qed.

(** ** Blocks and paths side by side *)

Lemma blocks_at_index fs (blocks files : list string) :
  Forall2 (block_of fs) blocks files →
  length blocks = length files
  ∧ ∀ (i : nat) file_path,
      files !! i = Some file_path →
      ∃ content,
        read_utf8 fs file_path = ReadOk content
        ∧ blocks !! i = Some (format_file_content file_path content).
Proof.
  intros Hall. split; [by eapply Forall2_length|].
  intros i p Hp.
  destruct (Forall2_lookup_r _ _ _ _ _ Hall Hp) as (blk & Hblk & c & Hr & ->).
  by exists c.
Qed.

(** C9. After any number of calls of [process_file] the two lists have the
    same length and the block at each index is [format_file_content] of the
    path at that index and of the content read from it; this holds for the
    lists returned by [get_files_from_paths]. One call either leaves both
    lists alone or appends one block to the first and the path to the
    second. *)
Theorem blocks_parallel_to_files fs ee en mb file_paths dir_paths :
  (∀ seen st, reachable fs ee en mb seen st →
     length (formatted_contents st) = length (included_files st)
     ∧ ∀ (i : nat) file_path,
         included_files st !! i = Some file_path →
         ∃ content,
           read_utf8 fs file_path = ReadOk content
           ∧ formatted_contents st !! i
             = Some (format_file_content file_path content))
  ∧ (let '(blocks, files) := get_files_from_paths fs ee en mb file_paths dir_paths in
     length blocks = length files
     ∧ ∀ (i : nat) file_path,
         files !! i = Some file_path →
         ∃ content,
           read_utf8 fs file_path = ReadOk content
           ∧ blocks !! i = Some (format_file_content file_path content))
  ∧ (∀ st file_path,
       let st' := process_file fs ee en mb st file_path in
       (formatted_contents st' = formatted_contents st
        ∧ included_files st' = included_files st)
       ∨ (∃ content,
            read_utf8 fs file_path = ReadOk content
            ∧ formatted_contents st'
              = formatted_contents st ++ [format_file_content file_path content]
            ∧ included_files st' = included_files st ++ [file_path])).
Proof.
  split_and!.
  - intros seen st Hreach. apply blocks_at_index. by eapply reachable_blocks.
  - unfold get_files_from_paths. apply blocks_at_index.
    eapply reachable_blocks. apply collect_reachable.
  - intros st p st'. subst st'.
    destruct (process_file_cases fs ee en mb st p)
      as [(Hf & Hi & _)|(c & _ & _ & Hr & _ & ->)].
    + by left.
    + right. by exists c.
Qed.

Lemma blocks_parallel_to_files_witness :
  let st := collect DuplicateFixture.fs None None None
              (Some ["a.txt"]) (Some ["d"]) in
  length (formatted_contents st) = length (included_files st)
  ∧ ∃ content,
      read_utf8 DuplicateFixture.fs "d/a.txt" = ReadOk content
      ∧ formatted_contents st !! 1%nat
        = Some (format_file_content "d/a.txt" content).
Proof.
  intros st.
  destruct (proj1 (blocks_parallel_to_files DuplicateFixture.fs None None None
                     (Some ["a.txt"]) (Some ["d"]))
              (candidates DuplicateFixture.fs (Some ["a.txt"]) (Some ["d"])) st)
    as [Hlen Hidx].
  - apply collect_reachable.
  - split; [exact Hlen|]. apply Hidx. reflexivity.
Defined.

(** ** The edge of the budget *)

(** C10, as the code has it. The budget check rejects a file only when
    [max_bytes] is not zero and the running total plus the encoded size is
    strictly above it. In a run, a candidate that passes the filters and
    brings the total to exactly [max_bytes] is included; a candidate that
    passes the filters and encodes to zero bytes is included whenever
    [max_bytes] is not negative, also when the total has reached it. *)
Theorem budget_rejects_only_strict_excess fs ee en m seen st file_path content :
  reachable fs ee en (Some m) seen st →
  should_exclude ee en file_path = false →
  is_binary_file fs file_path = false →
  read_utf8 fs file_path = ReadOk content →
  (over_budget (Some m) (total_bytes st) (Py.utf8_len content) = true
   ↔ m ≠ 0 ∧ total_bytes st + Py.utf8_len content > m)
  ∧ (total_bytes st + Py.utf8_len content = m →
     process_file fs ee en (Some m) st file_path = accepted st file_path content)
  ∧ (0 ≤ m → Py.utf8_len content = 0 →
     process_file fs ee en (Some m) st file_path = accepted st file_path content).
Proof.
  intros Hreach Hx Hb Hr.
  assert (Hspec : over_budget (Some m) (total_bytes st) (Py.utf8_len content) = true
                  ↔ m ≠ 0 ∧ total_bytes st + Py.utf8_len content > m).
  { split; [apply over_budget_true_gt|].
    intros [Hm Hgt]. unfold over_budget.
    destruct (Z.eqb_spec m 0); [done|]. simpl.
    destruct (Z.gtb_spec (total_bytes st + Py.utf8_len content) m); [done|lia]. }
  split_and!; [exact Hspec| |].
  - intros Heq. apply process_file_accepts; try done.
    apply not_true_is_false. rewrite Hspec. lia.
  - intros Hm Hzero. apply process_file_accepts; try done.
    apply not_true_is_false. rewrite Hspec. intros [Hne Hgt].
    pose proof (reachable_within_budget fs ee en (Some m) m seen st eq_refl
                  ltac:(lia) Hreach).
    lia.
Qed.

Lemma budget_rejects_only_strict_excess_witness :
  let st := collect EdgeFixture.fs None None (Some 4) (Some ["a.txt"]) None in
  total_bytes st = 4
  ∧ process_file EdgeFixture.fs None None (Some 4) st "e.txt"
    = accepted st "e.txt" EmptyString.
Proof.
  intros st. split; [reflexivity|].
  refine (proj2 (proj2 (budget_rejects_only_strict_excess EdgeFixture.fs None None
            4 (candidates EdgeFixture.fs (Some ["a.txt"]) None) st "e.txt"
            EmptyString _ _ _ _)) _ _).
  - apply collect_reachable.
  - reflexivity.
  - reflexivity.
  - reflexivity.
  - lia.
  - reflexivity.
Defined.

(** C10 as stated fails below zero: with [max_bytes = -1] the empty file is
    rejected by the budget check. *)
Lemma negative_budget_counterexample :
  let st := collect EdgeFixture.fs None None (Some (-1)) (Some ["e.txt"]) None in
  read_utf8 EdgeFixture.fs "e.txt" = ReadOk EmptyString
  ∧ Py.utf8_len EmptyString = 0
  ∧ included_files st = []
  ∧ stdout st = ["Warning: Skipping e.txt as it would exceed the max bytes limit"].
Proof. by vm_compute. Qed.

(** The boundary itself: a second file of four bytes fills a budget of eight
    exactly and is included; with a budget of seven it is not. *)
Example budget_boundary :
  included_files
    (collect EdgeFixture.fs None None (Some 8) (Some ["a.txt"; "a.txt"; "e.txt"]) None)
  = ["a.txt"; "a.txt"; "e.txt"]
  ∧ included_files
      (collect EdgeFixture.fs None None (Some 7) (Some ["a.txt"; "a.txt"; "e.txt"]) None)
    = ["a.txt"; "e.txt"].
Proof. by vm_compute. Qed.

(** ** The formatted block and the prompt *)

Lemma string_app_list (s t : string) :
  list_ascii_of_string (s +:+ t) = list_ascii_of_string s ++ list_ascii_of_string t.
Proof. induction s as [|c r IH]; simpl; [done|]. by rewrite IH. Qed.

Lemma string_app_assoc (s t u : string) : (s +:+ t) +:+ u = s +:+ (t +:+ u).
Proof.
  induction s as [|c r IH]; [done|].
  change (String c ((r +:+ t) +:+ u) = String c (r +:+ (t +:+ u))).
  by rewrite IH.
Qed.

(** C6. The block of a file is, character for character, ['File: '], the
    base name of the path, a newline, three double quotes, a newline, the
    content as it was read, a newline and three double quotes: the content
    sits between the two fixed parts unchanged, triple quotes included.
    Every block returned by [get_files_from_paths] is such a block, for the
    path at the same position and the content read from it. *)
Theorem format_file_content_exact fs ee en mb file_paths dir_paths :
  (∀ file_path C,
     let N := OsPath.basename file_path in
     list_ascii_of_string (format_file_content file_path C)
     = list_ascii_of_string "File: " ++ list_ascii_of_string N
       ++ [Py.nl; Py.dquote; Py.dquote; Py.dquote; Py.nl]
       ++ list_ascii_of_string C
       ++ [Py.nl; Py.dquote; Py.dquote; Py.dquote])
  ∧ Forall2
      (λ block file_path,
         ∃ C, read_utf8 fs file_path = ReadOk C
              ∧ list_ascii_of_string block
                = list_ascii_of_string "File: "
                  ++ list_ascii_of_string (OsPath.basename file_path)
                  ++ [Py.nl; Py.dquote; Py.dquote; Py.dquote; Py.nl]
                  ++ list_ascii_of_string C
                  ++ [Py.nl; Py.dquote; Py.dquote; Py.dquote])
      (fst (get_files_from_paths fs ee en mb file_paths dir_paths))
      (snd (get_files_from_paths fs ee en mb file_paths dir_paths))
  ∧ list_ascii_of_string (format_file_content "src/q.py" PromptFixture.quoted)
    = list_ascii_of_string "File: q.py"
      ++ [Py.nl; Py.dquote; Py.dquote; Py.dquote; Py.nl]
      ++ list_ascii_of_string "x = " ++ [Py.dquote; Py.dquote; Py.dquote]
      ++ list_ascii_of_string "doc" ++ [Py.dquote; Py.dquote; Py.dquote]
      ++ [Py.nl; Py.dquote; Py.dquote; Py.dquote].
Proof.
  assert (Hfmt : ∀ file_path C,
     list_ascii_of_string (format_file_content file_path C)
     = list_ascii_of_string "File: "
       ++ list_ascii_of_string (OsPath.basename file_path)
       ++ [Py.nl; Py.dquote; Py.dquote; Py.dquote; Py.nl]
       ++ list_ascii_of_string C
       ++ [Py.nl; Py.dquote; Py.dquote; Py.dquote]).
  { intros p C. unfold format_file_content.
    rewrite !string_app_list. reflexivity. }
  split_and!.
  - intros p C N. apply Hfmt.
  - unfold get_files_from_paths. simpl.
    eapply Forall2_impl.
    + eapply reachable_blocks. apply collect_reachable.
    + intros blk p (C & Hr & ->). exists C. split; [done|apply Hfmt].
  - reflexivity.
Qed.

(** C7. With at least one block the prompt is the question, two newlines,
    and the blocks with two newlines between neighbours; with none it is
    the question alone. A run returns no block exactly when it included no
    file, so the same reads with files for blocks. The scenario of the
    specification is the last part. *)
Theorem final_prompt_layout :
  (∀ question block blocks,
     final_prompt question (block :: blocks)
     = question +:+ newline +:+ newline
       +:+ Py.join (newline +:+ newline) (block :: blocks))
  ∧ (∀ question block, final_prompt question [block]
       = question +:+ newline +:+ newline +:+ block)
  ∧ (∀ question b1 b2 b3, final_prompt question [b1; b2; b3]
       = question +:+ newline +:+ newline +:+ b1 +:+ newline +:+ newline
         +:+ b2 +:+ newline +:+ newline +:+ b3)
  ∧ (∀ sep block block' blocks,
       Py.join sep (block :: block' :: blocks)
       = block +:+ sep +:+ Py.join sep (block' :: blocks))
  ∧ (∀ question, final_prompt question [] = question)
  ∧ (∀ fs ee en mb file_paths dir_paths question,
       let '(blocks, files) :=
         get_files_from_paths fs ee en mb file_paths dir_paths in
       (files = [] → final_prompt question blocks = question)
       ∧ (files ≠ [] →
          final_prompt question blocks
          = question +:+ newline +:+ newline
            +:+ Py.join (newline +:+ newline) blocks))
  ∧ (let '(blocks, files) :=
       get_files_from_paths PromptFixture.fs None None None (Some ["a.txt"]) None in
     files = ["a.txt"]
     ∧ list_ascii_of_string (final_prompt "Summarize" blocks)
       = list_ascii_of_string "Summarize" ++ [Py.nl; Py.nl]
         ++ list_ascii_of_string "File: a.txt"
         ++ [Py.nl; Py.dquote; Py.dquote; Py.dquote; Py.nl]
         ++ list_ascii_of_string "hello"
         ++ [Py.nl; Py.dquote; Py.dquote; Py.dquote]).
Proof.
  split_and!.
  - intros question block blocks. unfold final_prompt. cbn [Py.join]. done.
  - intros question block. unfold final_prompt. cbn [Py.join]. done.
  - intros question b1 b2 b3. unfold final_prompt. cbn [Py.join].
    cbn [String.append]. by rewrite !string_app_assoc.
  - done.
  - intros question. unfold final_prompt. by cbn [Py.join].
  - intros fs ee en mb file_paths dir_paths question.
    unfold get_files_from_paths.
    pose proof (Forall2_length _ _ _
                  (reachable_blocks _ _ _ _ _ _
                     (collect_reachable fs ee en mb file_paths dir_paths)))
      as Hlen.
    destruct (formatted_contents _) as [|block blocks];
      destruct (included_files _) as [|file files]; try done.
  - by vm_compute.
Qed.

(** ** What [os.path.splitext] calls an extension *)

Lemma rfind_from_last_occ c s : ∀ i found,
  Py.rfind_from c s i found
  = match last_occ c s with
    | Some k => i + Z.of_nat k
    | None => found
    end.
Proof.
  induction s as [|a r IH]; intros i found; simpl; [done|].
  rewrite IH. destruct (last_occ c r) as [k|]; [lia|].
  destruct (Ascii.eqb a c); [lia|done].
Qed.

Lemma rfind_last_occ c s :
  Py.rfind c s = match last_occ c s with
                 | Some k => Z.of_nat k
                 | None => -1
                 end.
Proof.
  unfold Py.rfind. rewrite rfind_from_last_occ.
  destruct (last_occ c s); lia.
Qed.

Lemma last_occ_drop c s :
  last_occ c (Py.drop_str (match last_occ c s with
                           | Some k => S k
                           | None => O
                           end) s) = None.
Proof.
  induction s as [|a r IH]; simpl; [done|].
  destruct (last_occ c r) as [k|] eqn:Hr; simpl.
  - exact IH.
  - destruct (Ascii.eqb a c) eqn:Hac; simpl; [done|]. by rewrite Hr, Hac.
Qed.

Lemma last_occ_get c s k :
  last_occ c s = Some k → ∃ rest, Py.drop_str k s = String c rest.
Proof.
  revert k. induction s as [|a r IH]; intros k; simpl; [done|].
  destruct (last_occ c r) as [j|].
  - intros [= <-]. simpl. by apply IH.
  - destruct (Ascii.eqb_spec a c) as [->|_]; [|done].
    intros [= <-]. simpl. by exists r.
Qed.

(** The base name of a path holds no separator. *)
Lemma basename_no_sep (p : string) :
  Py.rfind OsPath.sep (OsPath.basename p) = -1.
Proof.
  unfold OsPath.basename. rewrite (rfind_last_occ OsPath.sep p).
  rewrite rfind_last_occ.
  pose proof (last_occ_drop OsPath.sep p) as Hdrop.
  destruct (last_occ OsPath.sep p) as [k|].
  - replace (Z.to_nat (Z.of_nat k + 1)) with (S k) by lia. by rewrite Hdrop.
  - simpl in *. by rewrite Hdrop.
Qed.

Lemma drop_str_get (i : nat) (s : string) :
  match String.get i s with
  | Some c => Py.drop_str i s = String c (Py.drop_str (S i) s)
  | None => ∀ j, (i ≤ j)%nat → Py.drop_str j s = EmptyString
  end.
Proof.
  revert i. induction s as [|a r IH]; intros i; simpl.
  - intros j _. by destruct j.
  - destruct i as [|i]; simpl; [done|].
    specialize (IH i). destruct (String.get i r).
    + exact IH.
    + intros [|j] Hj; [lia|]. simpl. apply IH. lia.
Qed.

Lemma take_str_S_drop (k i : nat) (s : string) (c : ascii) :
  Py.drop_str i s = String c (Py.drop_str (S i) s) →
  Py.take_str (S k) (Py.drop_str i s)
  = String c (Py.take_str k (Py.drop_str (S i) s)).
Proof. intros ->. done. Qed.

Lemma splitext_loop_snd (p : string) (d : nat) : ∀ (n i : nat),
  (i + n = d)%nat →
  snd (OsPath.splitext_loop p (Z.of_nat d) (Z.of_nat i) n)
  = if only_dots (Py.take_str n (Py.drop_str i p)) then EmptyString
    else Py.drop_str d p.
Proof.
  induction n as [|k IH]; intros i Hd.
  - done.
  - cbn [OsPath.splitext_loop].
    rewrite !Nat2Z.id. pose proof (drop_str_get i p) as Hget.
    destruct (String.get i p) as [c|].
    + rewrite (take_str_S_drop _ _ _ _ Hget). unfold only_dots.
      cbn [list_ascii_of_string forallb].
      rewrite (Ascii.eqb_sym OsPath.extsep c).
      destruct (Ascii.eqb c OsPath.extsep); cbn [andb snd]; [|done].
      replace (Z.of_nat i + 1) with (Z.of_nat (S i)) by lia.
      apply IH. lia.
    + cbn [snd]. rewrite (Hget i) by lia. rewrite (Hget d) by lia.
      by destruct (only_dots _).
Qed.

(** On a name without separator [splitext] yields [dotted_extension]. *)
Lemma splitext_dotted_extension (file_name : string) :
  Py.rfind OsPath.sep file_name = -1 →
  snd (OsPath.splitext file_name) = dotted_extension file_name.
Proof.
  intros Hsep. unfold OsPath.splitext, dotted_extension. rewrite Hsep.
  rewrite (rfind_last_occ OsPath.extsep file_name).
  destruct (last_occ OsPath.extsep file_name) as [d|]; [|done].
  replace (Z.of_nat d >? -1) with true by (symmetry; apply Z.gtb_lt; lia).
  replace (Z.of_nat d <? 0) with false by (symmetry; apply Z.ltb_ge; lia).
  replace (-1 + 1) with (Z.of_nat 0) by done.
  replace (Z.to_nat (Z.of_nat d - Z.of_nat 0)) with d by lia.
  rewrite (splitext_loop_snd file_name d d 0) by lia.
  by rewrite Nat2Z.id.
Qed.

Lemma extension_dotted (file_path : string) :
  extension file_path = dotted_extension (OsPath.basename file_path).
Proof. apply splitext_dotted_extension, basename_no_sep. Qed.

(** An extension is empty or begins with the dot. *)
Lemma extension_shape (file_path : string) :
  extension file_path = EmptyString
  ∨ ∃ rest, extension file_path = String OsPath.extsep rest.
Proof.
  rewrite extension_dotted. unfold dotted_extension.
  rewrite (rfind_last_occ OsPath.extsep).
  destruct (last_occ OsPath.extsep (OsPath.basename file_path)) as [d|] eqn:Hd;
    [|by left].
  replace (Z.of_nat d <? 0) with false by (symmetry; apply Z.ltb_ge; lia).
  destruct (only_dots _); [by left|]. right.
  rewrite Nat2Z.id. by apply last_occ_get.
Qed.

(** ** Exclusion by extension and by name *)

Lemma contains_elem_of (x : string) (xs : list string) :
  Py.contains x xs = true ↔ x ∈ xs.
Proof.
  unfold Py.contains. rewrite existsb_exists. split.
  - intros (y & Hin & Heq). apply String.eqb_eq in Heq. subst y.
    by apply list_elem_of_In.
  - intros Hin. exists x. split; [by apply list_elem_of_In|apply String.eqb_refl].
Qed.

Lemma should_exclude_elem_of ee en file_path :
  should_exclude ee en file_path = true
  ↔ Py.lower (extension file_path) ∈ map Py.lower (Py.or_empty ee)
    ∨ OsPath.basename file_path ∈ Py.or_empty en.
Proof.
  unfold should_exclude, exclude_exts', exclude_names', extension.
  by rewrite orb_true_iff, !contains_elem_of.
Qed.

Lemma process_file_excluded fs ee en mb st file_path :
  should_exclude ee en file_path = true →
  process_file fs ee en mb st file_path = st.
Proof. intros Hx. unfold process_file. by rewrite Hx. Qed.

Lemma excluded_not_included fs ee en mb file_paths dir_paths file_path :
  should_exclude ee en file_path = true →
  file_path ∉ included_files (collect fs ee en mb file_paths dir_paths).
Proof.
  intros Hx Hin.
  destruct (not_included_unless_passed _ _ _ _ _ _ _
              (collect_reachable fs ee en mb file_paths dir_paths) Hin)
    as (Hnx & _).
  congruence.
Qed.

Lemma lower_char_dot (c : ascii) :
  Py.lower_char c = OsPath.extsep → c = OsPath.extsep.
Proof.
  destruct c as [[] [] [] [] [] [] [] []]; vm_compute; congruence.
Qed.

(** C3, as the code has it. Matching of excluded extensions ignores letter
    case and takes the entries as given, adding no leading ['.']: a
    candidate whose extension, as [os.path.splitext] gives it for the base
    name (the leading ['.'] included), equals an entry up to letter case is
    excluded and absent from the result; an entry that is not empty and
    does not begin with ['.'] equals no extension. *)
Theorem exclude_ext_ignores_case fs ee en mb file_paths dir_paths :
  (∀ entry file_path,
     entry ∈ Py.or_empty ee →
     Py.lower (extension file_path) = Py.lower entry →
     should_exclude ee en file_path = true
     ∧ (∀ st, process_file fs ee en mb st file_path = st)
     ∧ file_path ∉ included_files (collect fs ee en mb file_paths dir_paths))
  ∧ (∀ entry file_path,
       entry ≠ EmptyString →
       Py.startswith OsPath.extsep entry = false →
       Py.lower (extension file_path) ≠ Py.lower entry).
Proof.
  split.
  - intros entry p Hin Heq.
    assert (Hx : should_exclude ee en p = true).
    { apply should_exclude_elem_of. left. rewrite Heq.
      apply list_elem_of_fmap. by exists entry. }
    split_and!; [done| |].
    + intros st. by apply process_file_excluded.
    + by apply excluded_not_included.
  - intros entry p Hne Hdot Heq.
    destruct entry as [|c rest]; [done|]. simpl in Hdot, Heq.
    destruct (extension_shape p) as [Hext|[tail Hext]]; rewrite Hext in Heq;
      simpl in Heq; [done|].
    injection Heq as Hc _. symmetry in Hc.
    change (Py.lower_char c = OsPath.extsep) in Hc.
    apply lower_char_dot in Hc. subst c. done.
Qed.

Lemma exclude_ext_ignores_case_witness :
  "img/a.png" ∉ included_files
      (collect ExcludeFixture.fs (Some [".PNG"]) None None
         (Some ["img/a.png"; "notes.txt"]) None).
Proof.
  apply (proj1 (exclude_ext_ignores_case ExcludeFixture.fs (Some [".PNG"]) None
                  None (Some ["img/a.png"; "notes.txt"]) None)
           ".PNG" "img/a.png").
  - apply list_elem_of_here.
  - reflexivity.
Defined.

(** C3 as stated fails: the entry [png], without its dot, excludes
    nothing, and [a.png] is included. *)
Lemma undotted_entry_counterexample :
  extension "img/a.png" = ".png"
  ∧ included_files
      (collect ExcludeFixture.fs (Some ["png"]) None None
         (Some ["img/a.png"; "notes.txt"]) None)
    = ["img/a.png"; "notes.txt"].
Proof. by vm_compute. Qed.

(** C4, as the code has it. The extension is the one of [os.path.splitext]:
    the substring of the base name from its last ['.'] inclusive, empty
    when there is no ['.'] or when nothing but ['.'] comes before the last
    one. A candidate whose lower-cased extension is in the lower-cased set
    of excluded extensions, or whose base name is in the set of excluded
    names as it is spelled, is returned from at once: the state is
    unchanged, total included, and the path is absent from the result,
    whatever the file holds. *)
Theorem excluded_never_collected fs ee en mb file_paths dir_paths file_path :
  Py.lower (dotted_extension (OsPath.basename file_path))
    ∈ map Py.lower (Py.or_empty ee)
  ∨ OsPath.basename file_path ∈ Py.or_empty en →
  should_exclude ee en file_path = true
  ∧ (∀ st, process_file fs ee en mb st file_path = st)
  ∧ (file_path ∉ included_files (collect fs ee en mb file_paths dir_paths))
  ∧ (file_path ∉ snd (get_files_from_paths fs ee en mb file_paths dir_paths)).
Proof.
  intros Hin. rewrite <- extension_dotted in Hin.
  apply should_exclude_elem_of in Hin.
  split_and!; [done| | |].
  - intros st. by apply process_file_excluded.
  - by apply excluded_not_included.
  - by apply excluded_not_included.
Qed.

Lemma excluded_never_collected_witness :
  "notes.txt" ∉ included_files
      (collect ExcludeFixture.fs (Some [".PNG"]) (Some ["notes.txt"]) None
         (Some ["img/a.png"; "notes.txt"]) None).
Proof.
  apply (excluded_never_collected ExcludeFixture.fs (Some [".PNG"])
           (Some ["notes.txt"]) None (Some ["img/a.png"; "notes.txt"]) None
           "notes.txt").
  right. apply list_elem_of_here.
Defined.

(** C4 as stated fails on dot files: the substring of [.env] from its last
    ['.'] is [.env], an excluded extension, and the file is included. *)
Lemma dot_file_counterexample :
  Py.lower (spec_extension (OsPath.basename ".env")) = ".env"
  ∧ Py.lower (spec_extension (OsPath.basename ".env"))
      ∈ map Py.lower (Py.or_empty (Some [".env"]))
  ∧ extension ".env" = EmptyString
  ∧ get_files_from_paths ExcludeFixture.fs (Some [".env"]) None None
      (Some [".env"]) None
    = ([format_file_content ".env" "KEY=1"], [".env"]).
Proof.
  split_and!; try reflexivity. apply list_elem_of_here.
Qed.

(** Names are compared as spelled, extensions in lower case. *)
Example exclusion_cases :
  should_exclude (Some [".PNG"]) (Some ["Notes.txt"]) "x/Photo.PnG" = true
  ∧ should_exclude (Some [".PNG"]) (Some ["Notes.txt"]) "x/Notes.txt" = true
  ∧ should_exclude (Some [".PNG"]) (Some ["Notes.txt"]) "x/notes.txt" = false
  ∧ should_exclude (Some [".gz"]) None "x/a.tar.gz" = true
  ∧ should_exclude (Some [".tar.gz"]) None "x/a.tar.gz" = false.
Proof. by vm_compute. Qed.


(** ** Further properties of the collection *)

(** X1. Without a budget ([max_bytes] absent or [0]) the included files are
    exactly the candidates that are not excluded, not binary and readable
    as UTF-8, in the order of the candidates. *)
Theorem unbounded_run_includes_every_eligible fs ee en mb file_paths dir_paths :
  mb = None ∨ mb = Some 0 →
  included_files (collect fs ee en mb file_paths dir_paths)
  = List.filter (eligible fs ee en) (candidates fs file_paths dir_paths).
Proof.
  intros Hmb.
  assert (Hinv : ∀ seen st, reachable fs ee en mb seen st →
                   included_files st = List.filter (eligible fs ee en) seen).
  { induction 1 as [|seen st line _ IH|seen st p _ IH]; [done|exact IH|].
    rewrite List.filter_app, <- IH. by apply process_file_unbounded. }
  apply Hinv, collect_reachable.
Qed.

Lemma unbounded_run_includes_every_eligible_witness :
  included_files (BudgetFixture.run (Some 0) ["a.txt"; "nope"; "b.txt"; "c.txt"])
  = List.filter (eligible BudgetFixture.fs None None)
      (candidates BudgetFixture.fs (Some ["a.txt"; "nope"; "b.txt"; "c.txt"]) None).
Proof.
  apply (unbounded_run_includes_every_eligible BudgetFixture.fs None None (Some 0)
           (Some ["a.txt"; "nope"; "b.txt"; "c.txt"]) None).
  right. reflexivity.
Defined.

(** *** Every input is accounted for *)

Section Accounting.

Variable fs : filesystem.
Variables ee en : option (list string).
Variable mb : option Z.

Local Abbreviation kept := (kept ee en).

Lemma process_file_accounted st file_path :
  accounted (process_file fs ee en mb st file_path)
  = (accounted st + kept [file_path])%nat.
Proof.
  unfold accounted, kept, process_file. simpl.
  destruct (should_exclude ee en file_path); simpl; [lia|].
  destruct (is_binary_file fs file_path); simpl; [rewrite length_app; simpl; lia|].
  destruct (read_utf8 fs file_path) as [c| |e]; simpl;
    try (rewrite length_app; simpl; lia).
  destruct (over_budget _ _ _); simpl; rewrite length_app; simpl; lia.
Qed.

Lemma kept_app l1 l2 : kept (l1 ++ l2) = (kept l1 + kept l2)%nat.
Proof. unfold kept. by rewrite List.filter_app, length_app. Qed.

Lemma explicit_accounted file_paths : ∀ st,
  accounted (fold_left (explicit_step fs ee en mb) file_paths st)
  = (accounted st
     + length (List.filter (λ p, negb (isfile fs p)) file_paths)
     + kept (List.filter (isfile fs) file_paths))%nat.
Proof.
  induction file_paths as [|p rest IH]; intros st; simpl; [unfold kept; simpl; lia|].
  rewrite IH. unfold explicit_step.
  destruct (isfile fs p); simpl.
  - rewrite process_file_accounted.
    change (p :: List.filter (isfile fs) rest)
      with ([p] ++ List.filter (isfile fs) rest).
    rewrite kept_app. lia.
  - unfold accounted. simpl. rewrite length_app. simpl. lia.
Qed.

Lemma files_accounted root files : ∀ st,
  accounted
    (fold_left
       (λ st file_name, process_file fs ee en mb st (OsPath.join root file_name))
       files st)
  = (accounted st + kept (map (OsPath.join root) files))%nat.
Proof.
  induction files as [|f rest IH]; intros st; simpl; [unfold kept; simpl; lia|].
  rewrite IH, process_file_accounted.
  change (OsPath.join root f :: map (OsPath.join root) rest)
    with ([OsPath.join root f] ++ map (OsPath.join root) rest).
  rewrite kept_app. lia.
Qed.

Lemma walk_accounted entries : ∀ st,
  accounted (fold_left (walk_step fs ee en mb) entries st)
  = (accounted st + kept (flat_map walked_files entries))%nat.
Proof.
  induction entries as [|[[root dirs] files] rest IH]; intros st; simpl;
    [unfold kept; simpl; lia|].
  rewrite IH, kept_app. simpl. rewrite files_accounted. lia.
Qed.

Lemma dirs_accounted dir_paths : ∀ st,
  accounted (fold_left (dir_step fs ee en mb) dir_paths st)
  = (accounted st
     + length (List.filter (λ d, negb (isdir fs d)) dir_paths)
     + kept (flat_map (walked_root fs) dir_paths))%nat.
Proof.
  induction dir_paths as [|d rest IH]; intros st; simpl; [unfold kept; simpl; lia|].
  rewrite IH, kept_app. unfold dir_step, walked_root.
  destruct (isdir fs d); simpl.
  - rewrite walk_accounted. lia.
  - unfold accounted. simpl. rewrite length_app. simpl. lia.
Qed.

(** X2. Each explicit path that is not a regular file, each root that is not a
    directory and each candidate that is not excluded leaves exactly one
    trace, a printed line or an included file; an excluded candidate leaves
    none. So the printed lines and the included files together number as
    many as those inputs. *)
Theorem every_input_accounted file_paths dir_paths :
  let st := collect fs ee en mb file_paths dir_paths in
  (length (stdout st) + length (included_files st))%nat
  = (length (List.filter (λ p, negb (isfile fs p)) (Py.or_empty file_paths))
     + length (List.filter (λ d, negb (isdir fs d)) (Py.or_empty dir_paths))
     + length (List.filter (λ p, negb (should_exclude ee en p))
                 (candidates fs file_paths dir_paths)))%nat.
Proof.
  intros st. subst st. unfold collect, candidates.
  pose proof (dirs_accounted (Py.or_empty dir_paths)
                (fold_left (explicit_step fs ee en mb) (Py.or_empty file_paths)
                   initial)) as Hd.
  pose proof (explicit_accounted (Py.or_empty file_paths) initial) as He.
  unfold accounted, kept in Hd, He. simpl in He.
  rewrite List.filter_app, length_app. lia.
Qed.

End Accounting.

(** *** A run only appends *)

Section Extension.

Variable fs : filesystem.
Variables ee en : option (list string).
Variable mb : option Z.

Lemma extends_refl st : extends st st.
Proof. unfold extends. split_and!; done. Qed.

Lemma extends_trans st1 st2 st3 :
  extends st1 st2 → extends st2 st3 → extends st1 st3.
Proof.
  intros (Hf & Hi & Ho & Ht) (Hf' & Hi' & Ho' & Ht').
  unfold extends. split_and!; [by etrans|by etrans|by etrans|lia].
Qed.

Lemma print_extends st line : extends st (print st line).
Proof.
  unfold extends, print. simpl. split_and!; try done. by apply prefix_app_r.
Qed.

Lemma process_file_extends st file_path :
  extends st (process_file fs ee en mb st file_path).
Proof.
  unfold process_file.
  destruct (should_exclude ee en file_path); [apply extends_refl|].
  destruct (is_binary_file fs file_path); [apply print_extends|].
  destruct (read_utf8 fs file_path) as [c| |e]; try apply print_extends.
  destruct (over_budget _ _ _); [apply print_extends|].
  unfold extends. simpl. pose proof (utf8_len_nonneg c).
  split_and!; try done; try (by apply prefix_app_r). lia.
Qed.

Lemma fold_extends {A} (step : collector → A → collector) (l : list A) :
  (∀ st x, extends st (step st x)) →
  ∀ st, extends st (fold_left step l st).
Proof.
  intros Hstep. induction l as [|x rest IH]; intros st; simpl.
  - apply extends_refl.
  - eapply extends_trans; [apply Hstep|apply IH].
Qed.

Lemma explicit_step_extends st p : extends st (explicit_step fs ee en mb st p).
Proof.
  unfold explicit_step. destruct (isfile fs p); simpl.
  - apply process_file_extends.
  - apply print_extends.
Qed.

Lemma walk_step_extends st entry : extends st (walk_step fs ee en mb st entry).
Proof.
  destruct entry as [[root dirs] files]. unfold walk_step.
  apply fold_extends. intros st' f. apply process_file_extends.
Qed.

Lemma dir_step_extends st d : extends st (dir_step fs ee en mb st d).
Proof.
  unfold dir_step. destruct (isdir fs d); simpl.
  - apply fold_extends, walk_step_extends.
  - apply print_extends.
Qed.

(** X3. What the explicit files contribute is untouched by the directory
    roots: the blocks, paths and printed lines of the run over the explicit
    files alone open the lists of the full run, in the same order. Giving
    more roots, or more explicit files when there are no roots, likewise
    only appends. *)
Theorem run_only_appends file_paths dir_paths more :
  extends (collect fs ee en mb file_paths None)
          (collect fs ee en mb file_paths dir_paths)
  ∧ extends (collect fs ee en mb file_paths dir_paths)
            (collect fs ee en mb file_paths
               (Some (Py.or_empty dir_paths ++ more)))
  ∧ extends (collect fs ee en mb file_paths None)
            (collect fs ee en mb (Some (Py.or_empty file_paths ++ more)) None).
Proof.
  unfold collect. simpl. split_and!.
  - apply fold_extends, dir_step_extends.
  - rewrite fold_left_app. apply fold_extends, dir_step_extends.
  - rewrite fold_left_app. apply fold_extends, explicit_step_extends.
Qed.

(** X4. Inputs that are not there cost a warning each and nothing else: when
    no explicit path is a regular file and no root is a directory, the
    result is empty, the total is zero, and the printed lines are the
    warnings, files first, in argument order. *)
Theorem missing_inputs_only_warn file_paths dir_paths :
  (∀ p, p ∈ file_paths → isfile fs p = false) →
  (∀ d, d ∈ dir_paths → isdir fs d = false) →
  collect fs ee en mb (Some file_paths) (Some dir_paths)
  = {| formatted_contents := [];
       included_files := [];
       total_bytes := 0;
       stdout := map not_found_file file_paths ++ map not_found_dir dir_paths |}.
Proof.
  intros Hfiles Hdirs. unfold collect. simpl.
  assert (He : ∀ l st, (∀ p, p ∈ l → isfile fs p = false) →
             fold_left (explicit_step fs ee en mb) l st
             = {| formatted_contents := formatted_contents st;
                  included_files := included_files st;
                  total_bytes := total_bytes st;
                  stdout := stdout st ++ map not_found_file l |}).
  { induction l as [|p rest IH]; intros st Hl; simpl.
    - rewrite app_nil_r. by destruct st.
    - rewrite IH by (intros q Hq; apply Hl; by apply list_elem_of_further).
      unfold explicit_step. rewrite (Hl p) by apply list_elem_of_here.
      simpl. by rewrite <- app_assoc. }
  assert (Hd : ∀ l st, (∀ d, d ∈ l → isdir fs d = false) →
             fold_left (dir_step fs ee en mb) l st
             = {| formatted_contents := formatted_contents st;
                  included_files := included_files st;
                  total_bytes := total_bytes st;
                  stdout := stdout st ++ map not_found_dir l |}).
  { induction l as [|d rest IH]; intros st Hl; simpl.
    - rewrite app_nil_r. by destruct st.
    - rewrite IH by (intros q Hq; apply Hl; by apply list_elem_of_further).
      unfold dir_step. rewrite (Hl d) by apply list_elem_of_here.
      simpl. by rewrite <- app_assoc. }
  rewrite He by done. by rewrite Hd.
Qed.

End Extension.

Lemma missing_inputs_only_warn_witness :
  collect BudgetFixture.fs None None (Some 5) (Some ["x.txt"; "y.txt"]) (Some ["d"])
  = {| formatted_contents := [];
       included_files := [];
       total_bytes := 0;
       stdout := map not_found_file ["x.txt"; "y.txt"] ++ map not_found_dir ["d"] |}.
Proof.
  apply (missing_inputs_only_warn BudgetFixture.fs None None (Some 5)
           ["x.txt"; "y.txt"] ["d"]).
  - intros p Hp. apply elem_of_cons in Hp as [->|Hp]; [reflexivity|].
    apply elem_of_cons in Hp as [->|Hp]; [reflexivity|].
    by apply elem_of_nil in Hp.
  - intros d Hd. apply elem_of_cons in Hd as [->|Hd]; [reflexivity|].
    by apply elem_of_nil in Hd.
Defined.

(** *** The binary probe, both ways *)



(** *** Files found by a walk go by their bare name *)

Lemma last_occ_app c (s t : string) :
  last_occ c (s +:+ t)
  = match last_occ c t with
    | Some k => Some (String.length s + k)%nat
    | None => last_occ c s
    end.
Proof.
  induction s as [|a r IH].
  { change (EmptyString +:+ t) with t. by destruct (last_occ c t). }
  change (String a r +:+ t) with (String a (r +:+ t)).
  cbn [last_occ String.length]. rewrite IH.
  by destruct (last_occ c t).
Qed.

Lemma drop_str_app (s t : string) (k : nat) :
  Py.drop_str (String.length s + k) (s +:+ t) = Py.drop_str k t.
Proof. induction s as [|a r IH]; [done|exact IH]. Qed.

Lemma basename_last_occ (p : string) :
  OsPath.basename p
  = Py.drop_str (match last_occ OsPath.sep p with
                 | Some k => S k
                 | None => O
                 end) p.
Proof.
  unfold OsPath.basename. rewrite rfind_last_occ.
  destruct (last_occ OsPath.sep p) as [k|]; [|done].
  by replace (Z.to_nat (Z.of_nat k + 1)) with (S k) by lia.
Qed.

Lemma endswith_split c (s : string) :
  Py.endswith c s = true → ∃ s', s = s' +:+ String c EmptyString.
Proof.
  induction s as [|a r IH]; [done|]. simpl.
  destruct r as [|b r'].
  - intros ->%Ascii.eqb_eq. by exists EmptyString.
  - intros [s' Hs']%IH. exists (String a s'). by rewrite Hs'.
Qed.

Lemma no_sep_last_occ (s : string) :
  Py.rfind OsPath.sep s = -1 → last_occ OsPath.sep s = None.
Proof.
  rewrite rfind_last_occ. destruct (last_occ OsPath.sep s); [lia|done].
Qed.

Lemma basename_join (root file_name : string) :
  Py.rfind OsPath.sep file_name = -1 →
  OsPath.basename (OsPath.join root file_name) = file_name.
Proof.
  intros Hnone%no_sep_last_occ. unfold OsPath.join.
  destruct (Py.startswith OsPath.sep file_name) eqn:Hstart.
  { destruct file_name as [|a r]; [done|]. simpl in Hstart, Hnone.
    rewrite Hstart in Hnone. by destruct (last_occ OsPath.sep r). }
  rewrite !basename_last_occ.
  destruct (String.eqb_spec root EmptyString) as [->|Hroot]; cbn [orb].
  { change (EmptyString +:+ file_name) with file_name. by rewrite Hnone. }
  destruct (Py.endswith OsPath.sep root) eqn:Hend.
  - destruct (endswith_split _ _ Hend) as [r' ->].
    rewrite string_app_assoc.
    change (String OsPath.sep EmptyString +:+ file_name)
      with (String OsPath.sep file_name).
    rewrite last_occ_app. cbn [last_occ]. rewrite Hnone, Ascii.eqb_refl.
    replace (S (String.length r' + 0)) with (String.length r' + 1)%nat by lia.
    by rewrite drop_str_app.
  - change (String OsPath.sep EmptyString +:+ file_name)
      with (String OsPath.sep file_name).
    rewrite last_occ_app. cbn [last_occ]. rewrite Hnone, Ascii.eqb_refl.
    replace (S (String.length root + 0)) with (String.length root + 1)%nat by lia.
    by rewrite drop_str_app.
Qed.

(** X6. A file found under a directory root is known to the collector by its
    bare name only: for a name without separator, whatever the directory
    the walk found it in, the path has that name as base name, is excluded
    exactly when the name is, and gets the block of the name, so the same
    name with the same content under two directories gives two equal
    blocks. *)
Theorem walked_file_goes_by_name ee en root file_name :
  Py.rfind OsPath.sep file_name = -1 →
  OsPath.basename (OsPath.join root file_name) = file_name
  ∧ should_exclude ee en (OsPath.join root file_name)
    = should_exclude ee en file_name
  ∧ (∀ content,
       format_file_content (OsPath.join root file_name) content
       = format_file_content file_name content)
  ∧ (∀ root' content,
       format_file_content (OsPath.join root file_name) content
       = format_file_content (OsPath.join root' file_name) content).
Proof.
  intros Hname.
  assert (Hself : OsPath.basename file_name = file_name).
  { rewrite basename_last_occ. by rewrite (no_sep_last_occ _ Hname). }
  split_and!.
  - by apply basename_join.
  - unfold should_exclude. by rewrite basename_join, Hself.
  - intros content. unfold format_file_content.
    by rewrite basename_join, Hself.
  - intros root' content. unfold format_file_content.
    by rewrite !basename_join.
Qed.

Lemma walked_file_goes_by_name_witness :
  OsPath.basename (OsPath.join "src/pkg" "a.txt") = "a.txt"
  ∧ format_file_content (OsPath.join "src/pkg" "a.txt") "hello"
    = format_file_content (OsPath.join "docs/" "a.txt") "hello".
Proof.
  destruct (walked_file_goes_by_name None None "src/pkg" "a.txt" eq_refl)
    as (Hb & _ & _ & Hsame).
  split; [exact Hb|apply Hsame].
Defined.

(** ** [main]: the dry run *)

Lemma listing_prints i included : Forall Main.is_print (Main.listing i included).
Proof.
  revert i. induction included as [|f rest IH]; intros i; simpl; constructor.
  - by eexists.
  - apply IH.
Qed.

Lemma listing_length i included :
  length (Main.listing i included) = length included.
Proof.
  revert i. induction included as [|f rest IH]; intros i; simpl; [done|].
  by rewrite IH.
Qed.

Lemma listing_lookup included : ∀ (i k : nat) file_path,
  included !! k = Some file_path →
  Main.listing i included !! k
  = Some (Main.Print ("  " +:+ Main.decimal (i + k + 1) +:+ ". " +:+ file_path)).
Proof.
  induction included as [|f rest IH]; intros i k p Hk; [done|].
  destruct k as [|k]; simpl in *.
  - injection Hk as ->. by rewrite Nat.add_0_r.
  - rewrite (IH (S i) k p Hk).
    by replace (S i + k + 1)%nat with (i + S k + 1)%nat by lia.
Qed.

Lemma warnings_print (lines : list string) :
  Forall Main.is_print (map Main.Print lines).
Proof. apply Forall_forall. intros e (l & -> & _)%list_elem_of_fmap. by eexists. Qed.

Lemma summary_none_iff fs' (included : list string) :
  summary_total_bytes fs' included = None
  ↔ ∃ f, f ∈ included ∧ ∀ content, read_utf8 fs' f ≠ ReadOk content.
Proof.
  assert (Hsum : sum_reread fs' included = None
                 ↔ ∃ f, f ∈ included ∧ ∀ content, read_utf8 fs' f ≠ ReadOk content).
  { induction included as [|f rest IH]; simpl.
    - split; [done|]. intros (f & Hf & _). by apply elem_of_nil in Hf.
    - destruct (read_utf8 fs' f) as [c| |e] eqn:Hr.
      + destruct (sum_reread fs' rest) as [n|].
        * split; [done|]. intros (g & Hg & Hbad).
          apply elem_of_cons in Hg as [->|Hg]; [by destruct (Hbad c)|].
          assert (Hnone : Some n = None) by (apply IH; by exists g).
          done.
        * split; [|done]. intros _.
          destruct (proj1 IH eq_refl) as (g & Hg & Hbad).
          exists g. split; [by apply list_elem_of_further|done].
      + split; [|done]. intros _. exists f.
        split; [apply list_elem_of_here|]. intros c. by rewrite Hr.
      + split; [|done]. intros _. exists f.
        split; [apply list_elem_of_here|]. intros c. by rewrite Hr. }
  unfold summary_total_bytes. destruct included as [|f rest]; [|exact Hsum].
  split; [done|]. intros (f & Hf & _). by apply elem_of_nil in Hf.
Qed.

Ltac in_trace :=
  rewrite ?elem_of_app, ?elem_of_cons, ?elem_of_nil; naive_solver.

Ltac all_prints :=
  repeat first
    [ apply warnings_print
    | apply listing_prints
    | apply Forall_nil_2
    | apply Forall_app_2
    | apply Forall_cons_2; [by eexists|] ].

Lemma dry_run_only_prints w a :
  Main.dry_run a = true → Forall Main.is_print (fst (Main.main w a)).
Proof.
  intros Hdry. unfold Main.main. rewrite Hdry. unfold Main.dry_run_report.
  destruct (summary_total_bytes _ _) as [total|]; cbn [fst]; all_prints.
Qed.

(** X7. A dry run only prints. Of the calls to the outside that a run can
    make ([print], [load_dotenv], [os.getenv], [genai.configure],
    [generate_content], the write of the output file) it makes prints
    alone, whatever the world answers: no [.env] is loaded, no environment
    variable is read, no client is configured or called, no file is
    written, and it never ends through [exit]. The live run of the same
    command line does load a [.env] and read [GEMINI_API_KEY]. *)
Theorem dry_run_stays_offline w a :
  Main.dry_run a = true →
  Forall Main.is_print (fst (Main.main w a))
  ∧ (∀ e, e ∈ fst (Main.main w a) →
       (∀ p, e ≠ Main.LoadDotenv p)
       ∧ (∀ n, e ≠ Main.Getenv n)
       ∧ (∀ k, e ≠ Main.GenaiConfigure k)
       ∧ (∀ name prompt, e ≠ Main.GenerateContent name prompt)
       ∧ (∀ path text, e ≠ Main.WriteFile path text))
  ∧ (∀ code, snd (Main.main w a) ≠ Main.Exited code)
  ∧ Main.Getenv "GEMINI_API_KEY" ∈ fst (Main.main w (Main.with_dry_run false a))
  ∧ (∃ p, Main.LoadDotenv p ∈ fst (Main.main w (Main.with_dry_run false a))).
Proof.
  intros Hdry.
  pose proof (dry_run_only_prints w a Hdry) as Hall.
  split_and!.
  - exact Hall.
  - intros e He. rewrite Forall_forall in Hall.
    destruct (Hall e He) as [l ->]. by split_and!.
  - unfold Main.main. rewrite Hdry. unfold Main.dry_run_report.
    by destruct (summary_total_bytes _ _).
  - unfold Main.main, Main.configure_api. cbn [Main.with_dry_run Main.dry_run].
    destruct (Main.getenv_api_key w) as [[|c k]|];
      try destruct (Main.genai_configure w _); cbn [fst]; in_trace.
  - unfold Main.main, Main.configure_api, Main.load_env_file.
    cbn [Main.with_dry_run Main.dry_run].
    destruct (Main.path_exists w _), (Main.load_dotenv_default w),
      (Main.getenv_api_key w) as [[|c k]|];
      try destruct (Main.genai_configure w _); cbn [fst];
      eexists; in_trace.
Qed.

Lemma dry_run_stays_offline_witness :
  Forall Main.is_print
    (fst (Main.main MainFixture.online (MainFixture.command true (Some "out.txt")))).
Proof.
  apply (dry_run_stays_offline MainFixture.online
           (MainFixture.command true (Some "out.txt"))).
  reflexivity.
Defined.

Lemma lookup_app_plus {A} (l1 l2 : list A) (i : nat) :
  (l1 ++ l2) !! (length l1 + i)%nat = l2 !! i.
Proof.
  rewrite lookup_app_r by lia. f_equal. lia.
Qed.

(** X8. When the summary can be computed the dry run returns, and its output
    is, after the warnings of the collection: the header, the prompt, the
    rule, the line giving the number of included files, the total, and one
    line per included file, numbered from 1 in the order of inclusion. *)
Theorem dry_run_numbered_listing w a total :
  Main.dry_run a = true →
  summary_total_bytes (Main.fs_later w) (included_files (Main.collected w a))
  = Some total →
  let st := Main.collected w a in
  let out := fst (Main.main w a) in
  let base := length (stdout st) in
  snd (Main.main w a) = Main.Returned
  ∧ length out = (base + 5 + length (included_files st))%nat
  ∧ take base out = map Main.Print (stdout st)
  ∧ out !! (base + 0)%nat = Some (Main.Print "--- Prompt for AI (Dry Run) ---")
  ∧ out !! (base + 2)%nat = Some (Main.Print "-------------------------------")
  ∧ out !! (base + 1)%nat
    = Some (Main.Print (final_prompt (Main.question a) (formatted_contents st)))
  ∧ out !! (base + 3)%nat
    = Some (Main.Print (newline +:+ "Included Files Summary ("
                        +:+ Main.decimal (length (included_files st))
                        +:+ " files):"))
  ∧ out !! (base + 4)%nat
    = Some (Main.Print ("Total size: " +:+ Main.format_commas total +:+ " bytes"))
  ∧ ∀ (i : nat) file_path,
      included_files st !! i = Some file_path →
      out !! (base + 5 + i)%nat
      = Some (Main.Print ("  " +:+ Main.decimal (i + 1) +:+ ". " +:+ file_path)).
Proof.
  intros Hdry Hsum st out base. subst out.
  unfold Main.main. rewrite Hdry. unfold Main.dry_run_report.
  rewrite Hsum. fold st. cbn [fst snd].
  assert (Hbase : length (map Main.Print (stdout st)) = base)
    by apply length_map.
  split_and!.
  - done.
  - rewrite !length_app, listing_length, Hbase. simpl. lia.
  - rewrite <- Hbase. apply take_app_length.
  - rewrite <- Hbase, lookup_app_plus. done.
  - rewrite <- Hbase, lookup_app_plus. done.
  - rewrite <- Hbase, lookup_app_plus. done.
  - rewrite <- Hbase, lookup_app_plus. done.
  - rewrite <- Hbase, lookup_app_plus. done.
  - intros i p Hi.
    rewrite <- Hbase, <- Nat.add_assoc, lookup_app_plus.
    change (Main.listing 0 (included_files st) !! i
            = Some (Main.Print ("  " +:+ Main.decimal (i + 1) +:+ ". " +:+ p))).
    by rewrite (listing_lookup _ 0 i p Hi).
Qed.

Lemma dry_run_numbered_listing_witness :
  let out := fst (Main.main MainFixture.quiet (MainFixture.command true None)) in
  out !! 8%nat = Some (Main.Print "  2. c.txt").
Proof.
  intros out.
  destruct (dry_run_numbered_listing MainFixture.quiet
              (MainFixture.command true None) 5 eq_refl eq_refl)
    as (_ & _ & _ & _ & _ & _ & _ & _ & Hlist).
  exact (Hlist 1%nat "c.txt" eq_refl).
Defined.

Lemma summary_of_unchanged_run fs fs' ee en mb file_paths dir_paths :
  let st := collect fs ee en mb file_paths dir_paths in
  (∀ f, f ∈ included_files st → read_utf8 fs' f = read_utf8 fs f) →
  summary_total_bytes fs' (included_files st) = Some (total_bytes st).
Proof.
  intros st Hsame.
  pose proof (reachable_total _ _ _ _ _ _
                (collect_reachable fs ee en mb file_paths dir_paths)) as Htot.
  fold st in Htot. unfold summary_total_bytes.
  destruct (included_files st) as [|f rest] eqn:Hinc; [exact Htot|].
  rewrite <- Htot. by apply sum_reread_ext.
Qed.

(** X9. How a dry run ends. It is left through an exception nothing catches
    exactly when some included file no longer reads as UTF-8 text at the
    time of the summary, and it returns otherwise. The prompt is printed in
    both cases. When the included files read as they did during the
    collection, the size printed is the running total of the collection. *)
Theorem dry_run_ends w a :
  Main.dry_run a = true →
  let st := Main.collected w a in
  (snd (Main.main w a) = Main.Uncaught
   ↔ ∃ f, f ∈ included_files st
          ∧ ∀ content, read_utf8 (Main.fs_later w) f ≠ ReadOk content)
  ∧ (snd (Main.main w a) ≠ Main.Uncaught → snd (Main.main w a) = Main.Returned)
  ∧ Main.Print (final_prompt (Main.question a) (formatted_contents st))
      ∈ fst (Main.main w a)
  ∧ ((∀ f, f ∈ included_files st →
           read_utf8 (Main.fs_later w) f = read_utf8 (Main.fs_now w) f) →
     snd (Main.main w a) = Main.Returned
     ∧ Main.Print ("Total size: " +:+ Main.format_commas (total_bytes st)
                   +:+ " bytes")
         ∈ fst (Main.main w a)).
Proof.
  intros Hdry st.
  pose proof (summary_none_iff (Main.fs_later w) (included_files st)) as Hnone.
  assert (Hsame : (∀ f, f ∈ included_files st →
                      read_utf8 (Main.fs_later w) f = read_utf8 (Main.fs_now w) f) →
                  summary_total_bytes (Main.fs_later w) (included_files st)
                  = Some (total_bytes st)).
  { apply summary_of_unchanged_run. }
  unfold Main.main. rewrite Hdry. unfold Main.dry_run_report. fold st.
  destruct (summary_total_bytes (Main.fs_later w) (included_files st))
    as [total|]; cbn [fst snd].
  - split_and!.
    + split; [done|]. intros Hbad. by apply Hnone in Hbad.
    + done.
    + in_trace.
    + intros Hs. apply Hsame in Hs. injection Hs as ->. in_trace.
  - split_and!.
    + split; [|done]. intros _. by apply Hnone.
    + done.
    + in_trace.
    + intros Hs. by apply Hsame in Hs.
Qed.

Lemma dry_run_ends_witness :
  snd (Main.main MainFixture.online (MainFixture.command true None))
  = Main.Returned
  ∧ Main.Print "Total size: 5 bytes"
      ∈ fst (Main.main MainFixture.online (MainFixture.command true None)).
Proof.
  apply (dry_run_ends MainFixture.online (MainFixture.command true None) eq_refl).
  intros f Hf. vm_compute in Hf.
  apply elem_of_cons in Hf as [->|Hf]; [reflexivity|].
  apply elem_of_cons in Hf as [->|Hf]; [reflexivity|].
  by apply elem_of_nil in Hf.
Defined.

(** ** [main]: the live run *)

Lemma warnings_only_print (lines : list string) e :
  e ∈ map Main.Print lines → Main.is_print e.
Proof. intros (l & -> & _)%list_elem_of_fmap. by exists l. Qed.

Lemma configure_events w e :
  e ∈ fst (Main.configure_api w) →
  Main.is_print e ∨ (∃ p, e = Main.LoadDotenv p) ∨ (∃ k, e = Main.GenaiConfigure k)
  ∨ (∃ n, e = Main.Getenv n).
Proof.
  unfold Main.configure_api, Main.load_env_file, Main.is_print.
  destruct (Main.path_exists w _), (Main.load_dotenv_default w),
    (Main.getenv_api_key w) as [[|c k]|];
    try destruct (Main.genai_configure w _); cbn [fst];
    rewrite ?elem_of_app, ?elem_of_cons, ?elem_of_nil; naive_solver.
Qed.

Lemma deliver_events w a text e :
  e ∈ Main.deliver w a text →
  Main.is_print e
  ∨ ∃ path, e = Main.WriteFile path text
            ∧ Main.output a = Some path ∧ path ≠ EmptyString.
Proof.
  unfold Main.deliver, Main.print_response, Main.is_print.
  destruct (Main.output a) as [[|c path]|];
    try destruct (Main.write_text w _ _);
    rewrite ?elem_of_cons, ?elem_of_nil; naive_solver.
Qed.

Lemma ask_events w a prompt e :
  e ∈ Main.ask w a prompt →
  Main.is_print e
  ∨ e = Main.GenerateContent (Main.model a) prompt
  ∨ ∃ path text r printed,
      e = Main.WriteFile path text
      ∧ Main.output a = Some path ∧ path ≠ EmptyString
      ∧ Main.generate_content w (Main.model a) prompt = Main.ApiReturns r
      ∧ Main.response_text r = inl (text, printed).
Proof.
  unfold Main.ask, Main.api_error.
  destruct (Main.generative_model w (Main.model a)).
  { rewrite list_elem_of_singleton. intros ->. left. by eexists. }
  destruct (Main.generate_content w (Main.model a) prompt) as [err|r] eqn:Hgen.
  { unfold Main.is_print. in_trace. }
  destruct (Main.response_text r) as [[text printed]|err] eqn:Htext.
  - rewrite ?elem_of_app, ?elem_of_cons, ?elem_of_nil.
    intros [[->|[->|[]]]|[Hp|Hd]].
    + left. by eexists.
    + by right; left.
    + left. unfold Main.response_text in Htext.
      destruct (Main.parts r); [|injection Htext as _ <-; by apply elem_of_nil in Hp].
      destruct (Main.text r); try done; injection Htext as _ <-.
      * apply list_elem_of_singleton in Hp as ->. by eexists.
      * by apply elem_of_nil in Hp.
    + apply deliver_events in Hd as [Hd|(path & -> & Hout & Hne)]; [by left|].
      right; right. by exists path, text, r, printed.
  - unfold Main.is_print. in_trace.
Qed.

Lemma live_events w a e :
  Main.dry_run a = false →
  e ∈ fst (Main.main w a) →
  Main.is_print e
  ∨ (∃ p, e = Main.LoadDotenv p)
  ∨ (∃ k, e = Main.GenaiConfigure k)
  ∨ (∃ n, e = Main.Getenv n)
  ∨ (snd (Main.configure_api w) = None
     ∧ e ∈ Main.ask w a (final_prompt (Main.question a)
                           (formatted_contents (Main.collected w a)))).
Proof.
  intros Hlive. unfold Main.main. rewrite Hlive.
  pose proof (configure_events w e) as Hconf.
  destruct (Main.configure_api w) as [configured [code|]]; cbn [fst snd] in *;
    rewrite ?elem_of_app;
    intros Hin; destruct_or?;
    try (by eauto 8 using warnings_only_print);
    destruct (Hconf Hin) as [?|[?|[?|?]]]; eauto 8.
Qed.

(** X10. The dry run shows the prompt a live run sends. Whatever prompt a live
    run hands to the client, with the same command line and the same files,
    goes to the model named on the command line and is the text the dry
    run prints right after its header. *)
Theorem dry_run_shows_what_is_sent w a name prompt :
  Main.GenerateContent name prompt
    ∈ fst (Main.main w (Main.with_dry_run false a)) →
  name = Main.model a
  ∧ fst (Main.main w (Main.with_dry_run true a))
      !! (length (stdout (Main.collected w a)) + 1)%nat
    = Some (Main.Print prompt).
Proof.
  intros Hin.
  apply (live_events w (Main.with_dry_run false a) _ eq_refl) in Hin.
  destruct Hin as [[l Hl]|[[p Hp]|[[k Hk]|[[n Hn]|[_ Hask]]]]]; try done.
  apply ask_events in Hask as [[l Hl]|[Heq|(? & ? & ? & ? & ? & _)]]; try done.
  injection Heq as -> ->. split; [done|].
  change (Main.collected w (Main.with_dry_run false a)) with (Main.collected w a).
  unfold Main.main. cbn [Main.with_dry_run Main.dry_run].
  unfold Main.dry_run_report.
  change (Main.collected w (Main.with_dry_run true a)) with (Main.collected w a).
  rewrite <- (length_map Main.Print (stdout (Main.collected w a))).
  destruct (summary_total_bytes _ _); cbn [fst]; by rewrite lookup_app_plus.
Qed.

Lemma dry_run_shows_what_is_sent_witness :
  fst (Main.main MainFixture.online (MainFixture.command true None)) !! 3%nat
  = Some (Main.Print
            (final_prompt "Summarize"
               [format_file_content "a.txt" "aaaa";
                format_file_content "c.txt" "c"])).
Proof.
  refine (proj2 (dry_run_shows_what_is_sent MainFixture.online
                   (MainFixture.command false None) "gemini-2.0-flash" _ _)).
  vm_compute. do 6 apply list_elem_of_further. apply list_elem_of_here.
Defined.

(** X11. How a live run ends. It returns when the key read from the environment
    is a non-empty string and the client accepts it, and only then; in
    every other case it exits with status 1 and has by then neither called
    the model nor written a file. An empty key counts as no key. Either
    way the collection ran first: the warnings of the collection open the
    output. *)
Theorem live_run_outcome w a :
  Main.dry_run a = false →
  let ready :=
    ∃ key, Main.getenv_api_key w = Some key
           ∧ key ≠ EmptyString
           ∧ Main.genai_configure w key = None in
  (snd (Main.main w a) = Main.Returned ↔ ready)
  ∧ (snd (Main.main w a) ≠ Main.Returned →
     snd (Main.main w a) = Main.Exited 1
     ∧ ∀ e, e ∈ fst (Main.main w a) →
            (∀ name prompt, e ≠ Main.GenerateContent name prompt)
            ∧ (∀ path text, e ≠ Main.WriteFile path text))
  ∧ (Main.getenv_api_key w = None ∨ Main.getenv_api_key w = Some EmptyString →
     snd (Main.main w a) = Main.Exited 1
     ∧ last (fst (Main.main w a))
       = Some (Main.Print "Error: GEMINI_API_KEY environment variable not set."))
  ∧ map Main.Print (stdout (Main.collected w a)) `prefix_of` fst (Main.main w a).
Proof.
  intros Hlive ready. subst ready.
  pose proof (configure_events w) as Hconf.
  unfold Main.main. rewrite Hlive.
  unfold Main.configure_api in *.
  destruct (Main.getenv_api_key w) as [[|c key]|] eqn:Hkey; cbn [fst snd] in *.
  - split_and!.
    + split; [done|]. intros (k & [= <-] & Hne & _). done.
    + intros _. split; [done|]. intros e.
      rewrite elem_of_app. intros [Hw|Hc].
      * destruct (warnings_only_print _ _ Hw) as [l ->]. done.
      * destruct (Hconf e Hc) as [[l ->]|[[p ->]|[[k ->]|[n ->]]]]; done.
    + intros _. split; [done|]. by rewrite app_assoc, last_snoc.
    + by apply prefix_app_r.
  - destruct (Main.genai_configure w (String c key)) as [err|] eqn:Hcfg;
      cbn [fst snd] in *.
    + split_and!.
      * split; [done|]. intros (k & [= <-] & _ & Hok). congruence.
      * intros _. split; [done|]. intros e.
        rewrite elem_of_app. intros [Hw|Hc].
        -- destruct (warnings_only_print _ _ Hw) as [l ->]. done.
        -- destruct (Hconf e Hc) as [[l ->]|[[p ->]|[[k ->]|[n ->]]]]; done.
      * intros [?|?]; done.
      * by apply prefix_app_r.
    + split_and!.
      * split; [|done]. intros _. by exists (String c key).
      * done.
      * intros [?|?]; done.
      * by apply prefix_app_r.
  - split_and!.
    + split; [done|]. intros (k & ? & _). done.
    + intros _. split; [done|]. intros e.
      rewrite elem_of_app. intros [Hw|Hc].
      * destruct (warnings_only_print _ _ Hw) as [l ->]. done.
      * destruct (Hconf e Hc) as [[l ->]|[[p ->]|[[k ->]|[n ->]]]]; done.
    + intros _. split; [done|]. by rewrite app_assoc, last_snoc.
    + by apply prefix_app_r.
Qed.

Lemma live_run_outcome_witness :
  snd (Main.main MainFixture.quiet (MainFixture.command false (Some "out.txt")))
  = Main.Exited 1
  ∧ last (fst (Main.main MainFixture.quiet
                 (MainFixture.command false (Some "out.txt"))))
    = Some (Main.Print "Error: GEMINI_API_KEY environment variable not set.").
Proof.
  apply (live_run_outcome MainFixture.quiet
           (MainFixture.command false (Some "out.txt")) eq_refl).
  left. reflexivity.
Defined.

(** X12. The only file ever written is the answer of the model at the path
    asked for: a write happens only in a live run, only to the non-empty
    [--output] path, and only with the text taken from a response that the
    client returned for the prompt of this run. *)
Theorem write_only_the_response w a path written :
  Main.WriteFile path written ∈ fst (Main.main w a) →
  Main.dry_run a = false
  ∧ Main.output a = Some path
  ∧ path ≠ EmptyString
  ∧ ∃ r printed,
      Main.generate_content w (Main.model a)
        (final_prompt (Main.question a)
           (formatted_contents (Main.collected w a)))
      = Main.ApiReturns r
      ∧ Main.response_text r = inl (written, printed).
Proof.
  intros Hin.
  destruct (Main.dry_run a) eqn:Hdry.
  { pose proof (dry_run_only_prints w a Hdry) as Hall.
    rewrite Forall_forall in Hall. by destruct (Hall _ Hin). }
  apply (live_events w a _ Hdry) in Hin.
  destruct Hin as [[l Hl]|[[p Hp]|[[k Hk]|[[n Hn]|[_ Hask]]]]]; try done.
  apply ask_events in Hask
    as [[l Hl]|[Heq|(p & t & r & printed & [= <- <-] & Hout & Hne & Hgen & Htext)]];
    try done.
  split_and!; try done. by exists r, printed.
Qed.

Lemma write_only_the_response_witness :
  Main.output (MainFixture.command false (Some "out.txt")) = Some "out.txt"
  ∧ ∃ r printed,
      Main.generate_content MainFixture.online "gemini-2.0-flash"
        (final_prompt "Summarize"
           (formatted_contents
              (Main.collected MainFixture.online
                 (MainFixture.command false (Some "out.txt")))))
      = Main.ApiReturns r
      ∧ Main.response_text r = inl ("Hello", printed).
Proof.
  destruct (write_only_the_response MainFixture.online
              (MainFixture.command false (Some "out.txt")) "out.txt" "Hello")
    as (_ & Hout & _ & Hresp).
  - vm_compute. do 7 apply list_elem_of_further. apply list_elem_of_here.
  - split; [exact Hout|exact Hresp].
Defined.

(** X13. An answer is never lost. Once the client has returned a response from
    which a text could be taken, the run returns and the text has either
    been written to the output path, the write having succeeded, or been
    printed on the console: printed when no output path (or an empty one)
    was given, and printed after the error message when the write
    failed. *)
Theorem response_delivered w a key r answer printed :
  Main.dry_run a = false →
  Main.getenv_api_key w = Some key →
  key ≠ EmptyString →
  Main.genai_configure w key = None →
  Main.generative_model w (Main.model a) = None →
  Main.generate_content w (Main.model a)
    (final_prompt (Main.question a) (formatted_contents (Main.collected w a)))
  = Main.ApiReturns r →
  Main.response_text r = inl (answer, printed) →
  let out := fst (Main.main w a) in
  snd (Main.main w a) = Main.Returned
  ∧ (Main.print_response answer ∈ out
     ∨ ∃ path, Main.output a = Some path
               ∧ Main.write_text w path answer = None
               ∧ Main.WriteFile path answer ∈ out
               ∧ Main.Print ("Response saved to " +:+ path) ∈ out)
  ∧ (Main.output a = None ∨ Main.output a = Some EmptyString →
     last out = Some (Main.print_response answer))
  ∧ (∀ path e,
       Main.output a = Some path → path ≠ EmptyString →
       Main.write_text w path answer = Some e →
       last out = Some (Main.print_response answer)
       ∧ Main.Print ("Error saving response to file " +:+ path +:+ ": " +:+ e)
           ∈ out).
Proof.
  intros Hlive Hkey Hne Hcfg Hmodel Hgen Htext out. subst out.
  unfold Main.main. rewrite Hlive.
  unfold Main.configure_api. rewrite Hkey.
  destruct key as [|c key]; [done|]. rewrite Hcfg. cbn [fst snd].
  unfold Main.ask. rewrite Hmodel, Hgen, Htext. unfold Main.deliver.
  destruct (Main.output a) as [[|c' path]|] eqn:Hout.
  - split_and!; [done| | |].
    + left. in_trace.
    + intros _. by rewrite !app_assoc, last_snoc.
    + intros path e [= <-]. done.
  - destruct (Main.write_text w (String c' path) answer) as [err|] eqn:Hwrite.
    + split_and!; [done| | |].
      * left. in_trace.
      * intros [?|?]; done.
      * intros p e [= <-] _ He. rewrite Hwrite in He. injection He as <-.
        split; [|in_trace].
        rewrite !app_assoc.
        change [Main.WriteFile (String c' path) answer;
                Main.Print ("Error saving response to file "
                            +:+ String c' path +:+ ": " +:+ err);
                Main.print_response answer]
          with ([Main.WriteFile (String c' path) answer;
                 Main.Print ("Error saving response to file "
                             +:+ String c' path +:+ ": " +:+ err)]
                ++ [Main.print_response answer]).
        by rewrite !app_assoc, last_snoc.
    + split_and!; [done| | |].
      * right. exists (String c' path). split_and!; [done|done| |]; in_trace.
      * intros [?|?]; done.
      * intros p e [= <-] _ He. congruence.
  - split_and!; [done| | |].
    + left. in_trace.
    + intros _. by rewrite !app_assoc, last_snoc.
    + intros path e ?. done.
Qed.

Lemma response_delivered_witness :
  let out := fst (Main.main MainFixture.online
                    (MainFixture.command false (Some "ro/out.txt"))) in
  last out = Some (Main.print_response "Hello")
  ∧ Main.Print "Error saving response to file ro/out.txt: Permission denied"
      ∈ out.
Proof.
  intros out.
  destruct (response_delivered MainFixture.online
              (MainFixture.command false (Some "ro/out.txt"))
              "secret" MainFixture.answer "Hello" [])
    as (_ & _ & _ & Hfail); try reflexivity; try done.
  exact (Hfail "ro/out.txt" "Permission denied" eq_refl ltac:(done) eq_refl).
Defined.

(** X14. A failure of the API is reported and nothing more: when the client
    cannot build the model, the call raises, or reading the text of the
    response raises, the run prints the error as its last line and
    returns, and no file is written. When the model cannot be built the
    prompt is not sent at all. *)
Theorem api_failure_reported w a key e :
  Main.dry_run a = false →
  Main.getenv_api_key w = Some key →
  key ≠ EmptyString →
  Main.genai_configure w key = None →
  let prompt :=
    final_prompt (Main.question a) (formatted_contents (Main.collected w a)) in
  Main.generative_model w (Main.model a) = Some e
  ∨ (Main.generative_model w (Main.model a) = None
     ∧ (Main.generate_content w (Main.model a) prompt = Main.ApiRaises e
        ∨ ∃ r, Main.generate_content w (Main.model a) prompt = Main.ApiReturns r
               ∧ Main.response_text r = inr e)) →
  snd (Main.main w a) = Main.Returned
  ∧ last (fst (Main.main w a)) = Some (Main.api_error e)
  ∧ (∀ path text, Main.WriteFile path text ∉ fst (Main.main w a))
  ∧ (Main.generative_model w (Main.model a) = Some e →
     ∀ name sent, Main.GenerateContent name sent ∉ fst (Main.main w a)).
Proof.
  intros Hlive Hkey Hne Hcfg prompt Hfail.
  assert (Hask : (Main.ask w a prompt = [Main.api_error e]
                  ∧ Main.generative_model w (Main.model a) = Some e)
                 ∨ (Main.ask w a prompt
                    = [Main.Print ("Sending request to Gemini API using model "
                                   +:+ Main.model a +:+ "...");
                       Main.GenerateContent (Main.model a) prompt]
                      ++ [Main.api_error e]
                    ∧ Main.generative_model w (Main.model a) = None)).
  { unfold Main.ask.
    destruct Hfail as [Hm|[Hm [Hg|(r & Hg & Ht)]]]; rewrite Hm.
    - by left.
    - right. by rewrite Hg.
    - right. by rewrite Hg, Ht. }
  assert (Hno : ∀ x, x ∈ fst (Main.main w a) →
                  (∀ path text, x ≠ Main.WriteFile path text)
                  ∧ (Main.generative_model w (Main.model a) = Some e →
                     ∀ name sent, x ≠ Main.GenerateContent name sent)).
  { intros x Hx. apply (live_events w a x Hlive) in Hx.
    destruct Hx as [[l ->]|[[p ->]|[[k ->]|[[n ->]|[_ Hx]]]]]; try done.
    fold prompt in Hx. unfold Main.api_error in Hask.
    destruct Hask as [[Heq _]|[Heq Hnone]]; rewrite Heq in Hx;
      revert Hx; rewrite ?elem_of_app, ?elem_of_cons, ?elem_of_nil;
      intros Hx; destruct_or?; subst; try done;
      (split; [done|]); intros Hsome; congruence. }
  unfold Main.main in *. rewrite Hlive in *.
  unfold Main.configure_api in *. rewrite Hkey in *.
  destruct key as [|c key]; [done|]. rewrite Hcfg in *. cbn [fst snd] in *.
  fold prompt in Hno |- *.
  split_and!.
  - done.
  - destruct Hask as [[-> _]|[-> _]]; by rewrite !app_assoc, last_snoc.
  - intros path text Hin. by destruct (proj1 (Hno _ Hin) path text).
  - intros Hsome name sent Hin. by destruct (proj2 (Hno _ Hin) Hsome name sent).
Qed.

Lemma api_failure_reported_witness :
  last (fst (Main.main MainFixture.failing
               (MainFixture.command false (Some "out.txt"))))
  = Some (Main.api_error "quota exceeded").
Proof.
  apply (api_failure_reported MainFixture.failing
           (MainFixture.command false (Some "out.txt")) "secret" "quota exceeded");
    try reflexivity; try done.
  right. split; [reflexivity|]. left. reflexivity.
Defined.
